(** * A fixed-size circular buffer of float64 samples (main.go)

    Shallow embedding of [CircularBuffer] and of its methods [Push], [Pop],
    [Average] and [PrintBuffer], followed by the properties of the buffer's
    index arithmetic.

    Modelling choices.
    - Go's [int] is the 64-bit two's complement integer: it is a [Z] and every
      addition and subtraction of the source goes through [wrap64].  [%] is Go's truncated
      remainder ([Z.rem]) and panics on a zero divisor.
    - [float64] is Rocq's primitive binary64 [float].
    - The slice [buffer] is a [list float]; reads and writes are bounds
      checked as by the Go runtime and panic out of range.
    - A method with a pointer receiver is a computation in the monad [M]:
      it receives the struct, may panic, and otherwise returns a value
      together with the struct it leaves behind.
    - The [sync.RWMutex] field only serialises concurrent callers.  The model
      is the sequential behaviour of one call at a time, so the field and the
      Lock/Unlock pairs do not appear. *)

From Stdlib Require Import ZArith Lia Uint63 PrimFloat String.
From stdpp Require Import base list.

Local Open Scope Z_scope.

(** ** Go integers *)

Definition min_int : Z := - 2 ^ 63.
Definition max_int : Z := 2 ^ 63 - 1.

(** [x] is a value of Go's type [int]. *)
Definition is_int (x : Z) : Prop := min_int <= x <= max_int.

(** Two's complement wrap-around of a 64-bit signed result. *)
Definition wrap64 (x : Z) : Z := (x + 2 ^ 63) mod 2 ^ 64 - 2 ^ 63.

(** [float64(n)] for an [int] [n]: the nearest binary64, ties to even.
    [of_uint63] converts the naturals below [2^63]; rounding is symmetric, so
    a negative [n] is the opposite of the conversion of [-n], and [-2^63]
    (whose opposite is not below [2^63]) is the exact power of two. *)
Definition float64_of_int (n : Z) : float :=
  if n =? min_int then (- (of_uint63 (Uint63.of_Z (2 ^ 62)) * 2))%float
  else if n <? 0 then (- of_uint63 (Uint63.of_Z (- n)))%float
  else of_uint63 (Uint63.of_Z n).

(** ** Panics and the method monad *)

Inductive panic : Type :=
| IndexOutOfRange (index len : Z)   (* index out of range [index] with length len *)
| IntegerDivideByZero               (* integer divide by zero *)
| MakesliceLenOutOfRange.           (* makeslice: len out of range *)

Inductive result (A : Type) : Type :=
| Ok (a : A)
| Panic (p : panic).
Arguments Ok {A} a.
Arguments Panic {A} p.

(** CircularBuffer represents a fixed-size circular buffer for float64 values. *)
Record CircularBuffer : Type := mkCircularBuffer {
  buffer : list float;  (* The underlying slice to store the data *)
  size : Z;             (* The fixed size of the buffer *)
  head : Z;             (* Index where the next element will be inserted *)
  tail : Z;             (* Index of the oldest element *)
  count : Z             (* Number of elements currently in the buffer *)
}.

Definition M (A : Type) : Type := CircularBuffer -> result (A * CircularBuffer).

Definition ret {A} (a : A) : M A := fun cb => Ok (a, cb).

Definition bind {A B} (m : M A) (f : A -> M B) : M B :=
  fun cb =>
    match m cb with
    | Ok (a, cb') => f a cb'
    | Panic p => Panic p
    end.

Definition throw {A} (p : panic) : M A := fun _ => Panic p.

(** Reading a field of the receiver. *)
Definition gets {A} (f : CircularBuffer -> A) : M A := fun cb => Ok (f cb, cb).

(** Assignments to the fields of the receiver. *)
Definition set_buffer (b : list float) : M unit :=
  fun cb => Ok (tt, mkCircularBuffer b (size cb) (head cb) (tail cb) (count cb)).
Definition set_head (h : Z) : M unit :=
  fun cb => Ok (tt, mkCircularBuffer (buffer cb) (size cb) h (tail cb) (count cb)).
Definition set_tail (t : Z) : M unit :=
  fun cb => Ok (tt, mkCircularBuffer (buffer cb) (size cb) (head cb) t (count cb)).
Definition set_count (c : Z) : M unit :=
  fun cb => Ok (tt, mkCircularBuffer (buffer cb) (size cb) (head cb) (tail cb) c).

Declare Scope go_scope.
Delimit Scope go_scope with go.
Notation "'let*' x ':=' m 'in' f" := (bind m (fun x => f))
  (at level 10, x name, m at level 100, f at level 200) : go_scope.
Notation "m ';;' f" := (bind m (fun _ => f))
  (at level 100, f at level 200, right associativity) : go_scope.
Local Open Scope go_scope.

(** ** Runtime-checked primitives *)

(** [x % y]. *)
Definition go_rem (x y : Z) : M Z :=
  if y =? 0 then throw IntegerDivideByZero else ret (Z.rem x y).

(** [s[i]] as an expression. *)
Definition index (s : list float) (i : Z) : M float :=
  if (0 <=? i) && (i <? Z.of_nat (length s))
  then match s !! Z.to_nat i with
       | Some x => ret x
       | None => throw (IndexOutOfRange i (Z.of_nat (length s)))
       end
  else throw (IndexOutOfRange i (Z.of_nat (length s))).

(** [cb.buffer[i] = x]: the slice is shared storage, updated in place. *)
Definition store (i : Z) (x : float) : M unit :=
  let* s := gets buffer in
  if (0 <=? i) && (i <? Z.of_nat (length s))
  then set_buffer (<[Z.to_nat i := x]> s)
  else throw (IndexOutOfRange i (Z.of_nat (length s))).

(** The most bytes one allocation may take (runtime.maxAlloc on the 64-bit
    platforms with 48 address bits, linux/amd64 among them). *)
Definition maxAlloc : Z := 2 ^ 48.

(** [make([]float64, n)]: [n] zeroes.  runtime.makeslice panics when the
    length is negative or when [n] elements of 8 bytes exceed [maxAlloc]. *)
Definition make (n : Z) : result (list float) :=
  if (n <? 0) || (maxAlloc <? 8 * n) then Panic MakesliceLenOutOfRange
  else Ok (replicate (Z.to_nat n) 0%float).

(** ** The buffer's operations *)

(** NewCircularBuffer creates and returns a new CircularBuffer with the
    specified size. *)
Definition NewCircularBuffer (size : Z) : result CircularBuffer :=
  match make size with
  | Ok b => Ok (mkCircularBuffer b size 0 0 0)
  | Panic p => Panic p
  end.

(** Push adds a new item to the buffer and returns the item that was removed
    (if any). *)
Definition Push (item : float) : M float :=
  let* c := gets count in
  let* n := gets size in
  let* poppedItem :=
    (if c =? n then
       (* Buffer is full, remove the oldest item *)
       let* b := gets buffer in
       let* t := gets tail in
       let* x := index b t in
       let* n := gets size in
       let* t' := go_rem (wrap64 (t + 1)) n in
       set_tail t' ;;
       ret x
     else
       (* Buffer is not full, increase the count *)
       set_count (wrap64 (c + 1)) ;;
       ret 0%float) in
  (* Add the new item at the head *)
  let* h := gets head in
  store h item ;;
  (* Move the head forward, wrapping around if necessary *)
  let* n := gets size in
  let* h' := go_rem (wrap64 (h + 1)) n in
  set_head h' ;;
  ret poppedItem.

(** Pop removes and returns the oldest item from the buffer.  The boolean
    return value indicates whether an item was successfully removed. *)
Definition Pop : M (float * bool) :=
  let* c := gets count in
  if c =? 0 then
    (* Buffer is empty *)
    ret (0%float, false)
  else
    let* b := gets buffer in
    let* t := gets tail in
    let* item := index b t in
    (* Move the tail forward, wrapping around if necessary *)
    let* n := gets size in
    let* t' := go_rem (wrap64 (t + 1)) n in
    set_tail t' ;;
    let* c := gets count in
    set_count (wrap64 (c - 1)) ;;
    ret (item, true).

(** The body of [for i := 0; i < cb.count; i++] in [Average], entered with
    the current [i] and [sum]; [n] is the number of iterations still to run.
    No statement of the loop writes [cb.count], so the loop entered at
    [i = 0] runs [count] times (no time for a [count] that is not positive). *)
Fixpoint Average_loop (n : nat) (i : Z) (sum : float) : M float :=
  match n with
  | O => ret sum
  | S n' =>
      (* Calculate the actual index, wrapping around if necessary *)
      let* t := gets tail in
      let* sz := gets size in
      let* idx := go_rem (wrap64 (t + i)) sz in
      let* b := gets buffer in
      let* x := index b idx in
      Average_loop n' (wrap64 (i + 1)) (sum + x)%float
  end.

(** Average calculates and returns the average of all items in the buffer. *)
Definition Average : M float :=
  let* c := gets count in
  if c =? 0 then ret 0%float
  else
    let* sum := Average_loop (Z.to_nat c) 0 0%float in
    let* c := gets count in
    ret (sum / float64_of_int c)%float.

(** What a call writes to standard output, one item per call of package fmt. *)
Inductive output : Type :=
| Print (s : string)                  (* fmt.Print(s) *)
| Println (s : string)                (* fmt.Println(s); fmt.Println() is [Println ""] *)
| Printf (format : string) (x : float). (* fmt.Printf(format, x) *)

(** The loop of [PrintBuffer]; it returns what it printed. *)
Fixpoint PrintBuffer_loop (n : nat) (i : Z) : M (list output) :=
  match n with
  | O => ret []
  | S n' =>
      (* Calculate the actual index, wrapping around if necessary *)
      let* t := gets tail in
      let* sz := gets size in
      let* idx := go_rem (wrap64 (t + i)) sz in
      let* b := gets buffer in
      let* x := index b idx in
      let* rest := PrintBuffer_loop n' (wrap64 (i + 1)) in
      ret (Printf "%.2f " x :: rest)
  end.

(** PrintBuffer prints all elements in the buffer from tail to head.  The
    result is the text printed by the call, in order.  A panic inside the
    loop loses the text printed before it. *)
Definition PrintBuffer : M (list output) :=
  let* c := gets count in
  if c =? 0 then
    ret [Print "Buffer contents (tail to head): "; Println "empty"]
  else
    let* items := PrintBuffer_loop (Z.to_nat c) 0 in
    ret (Print "Buffer contents (tail to head): " :: items ++ [Println ""]).

(** main: a buffer of size 5, seven pushes of 0..6 with the buffer printed
    after each, then the average.  The result is the text printed. *)
Fixpoint main_loop (n : nat) (i : Z) : M (list output) :=
  match n with
  | O => ret []
  | S n' =>
      let* popped := Push (float64_of_int i) in
      let* shown := PrintBuffer in
      let* rest := main_loop n' (wrap64 (i + 1)) in
      ret (Printf "Pushed %.2f" (float64_of_int i)
           :: (if 5 <=? i then [Printf ", Popped %.2f" popped] else [])
           ++ Println "" :: shown ++ Println "" :: rest)
  end.

Definition main : result (list output) :=
  match NewCircularBuffer 5 with
  | Panic p => Panic p
  | Ok cb =>
      match (let* text := main_loop 7 0 in
             let* avg := Average in
             ret (text ++ [Printf "Average: %.2f\n" avg])) cb with
      | Ok (text, _) => Ok text
      | Panic p => Panic p
      end
  end.

(** ** Specification vocabulary *)

(** The fields are within the bounds a buffer of positive size keeps them
    in: the slice has [size] slots, [head] and [tail] index it, and [count]
    is between 0 and [size]. *)
Record in_bounds (cb : CircularBuffer) : Prop := {
  size_pos : 0 < size cb;
  size_len : Z.of_nat (length (buffer cb)) = size cb;
  size_alloc : 8 * size cb <= maxAlloc;
  head_range : 0 <= head cb < size cb;
  tail_range : 0 <= tail cb < size cb;
  count_range : 0 <= count cb <= size cb
}.

(** The slot of the [i]-th oldest element. *)
Definition slot (cb : CircularBuffer) (i : Z) : Z := (tail cb + i) mod size cb.

(** The state invariant: in bounds, and [head] is [count] slots after [tail]. *)
Definition wf (cb : CircularBuffer) : Prop :=
  in_bounds cb /\ head cb = slot cb (count cb).

#[local] Instance float_inhabited : Inhabited float := populate 0%float.

(** The value in slot [i] of the slice. *)
Definition at_slot (cb : CircularBuffer) (i : Z) : float :=
  buffer cb !!! Z.to_nat i.

(** The live elements, oldest first: slots [(tail + i) mod size] for
    [i] in [[0, count)]. *)
Definition contents (cb : CircularBuffer) : list float :=
  (fun i => at_slot cb (slot cb i)) <$> seqZ 0 (count cb).

(** The invariant of a buffer of capacity [k] whose live elements are [q]. *)
Definition holds (k : Z) (q : list float) (cb : CircularBuffer) : Prop :=
  wf cb /\ size cb = k /\ contents cb = q.

(** Whether the next Push takes the branch that removes the oldest item. *)
Definition is_full (cb : CircularBuffer) : bool := count cb =? size cb.

(** A client's calls. *)
Inductive op : Type :=
| OpPush (item : float)
| OpPop.

Definition run_op (o : op) : M unit :=
  match o with
  | OpPush item => Push item ;; ret tt
  | OpPop => Pop ;; ret tt
  end.

Fixpoint run_ops (ops : list op) : M unit :=
  match ops with
  | [] => ret tt
  | o :: ops' => run_op o ;; run_ops ops'
  end.

(** Reference model, written from the specification and not from the source:
    the elements that are live after a client's calls on a buffer of capacity
    [k], oldest first.  A push appends, after dropping the oldest element when
    [k] elements are live; a pop drops the oldest element, if any. *)
Definition queue_step (k : Z) (q : list float) (o : op) : list float :=
  match o with
  | OpPush item => if Z.of_nat (length q) =? k then drop 1 q ++ [item] else q ++ [item]
  | OpPop => drop 1 q
  end.

Definition queue_after (k : Z) (ops : list op) : list float :=
  fold_left (queue_step k) ops [].

(** Pushing a list of items in order.  For each push the result records
    whether the buffer was full when it was called, and what it returned. *)
Fixpoint Pushes (items : list float) : M (list (bool * float)) :=
  match items with
  | [] => ret []
  | item :: items' =>
      let* full := gets is_full in
      let* popped := Push item in
      let* rest := Pushes items' in
      ret ((full, popped) :: rest)
  end.

(** Calling a method [n] times in a row. *)
Fixpoint calls {A} (m : M A) (n : nat) : M (list A) :=
  match n with
  | O => ret []
  | S n' => let* a := m in let* rest := calls m n' in ret (a :: rest)
  end.

(** The values among the items printed by PrintBuffer. *)
Definition printed_values (text : list output) : list float :=
  omap (fun o => match o with Printf _ x => Some x | _ => None end) text.

(** A method that leaves the receiver as it found it. *)
Definition read_only {A} (m : M A) : Prop :=
  forall cb a cb', m cb = Ok (a, cb') -> cb' = cb.

(** What a call gives back to the client. *)
Inductive op_result : Type :=
| PushResult (popped : float)
| PopResult (item : float) (ok : bool).

Definition run_op_result (o : op) : M op_result :=
  match o with
  | OpPush item => let* popped := Push item in ret (PushResult popped)
  | OpPop => let* r := Pop in ret (PopResult (fst r) (snd r))
  end.

Fixpoint run_ops_results (ops : list op) : M (list op_result) :=
  match ops with
  | [] => ret []
  | o :: ops' =>
      let* r := run_op_result o in
      let* rest := run_ops_results ops' in
      ret (r :: rest)
  end.

(** Reference model, not from the source: what the bounded queue [q] of
    capacity [k] gives back.  A push gives the oldest element when [k]
    elements are live and the zero value otherwise; a pop gives the oldest
    element and true, or the zero value and false when nothing is live. *)
Definition queue_result (k : Z) (q : list float) (o : op) : op_result :=
  match o with
  | OpPush _ =>
      PushResult (if Z.of_nat (length q) =? k then hd 0%float q else 0%float)
  | OpPop =>
      match q with
      | [] => PopResult 0%float false
      | x :: _ => PopResult x true
      end
  end.

Fixpoint queue_results (k : Z) (q : list float) (ops : list op) : list op_result :=
  match ops with
  | [] => []
  | o :: ops' => queue_result k q o :: queue_results k (queue_step k q o) ops'
  end.

(** What PrintBuffer prints for the live elements [q], and what Average
    returns for them. *)
Definition text_of (q : list float) : list output :=
  Print "Buffer contents (tail to head): "
  :: match q with
     | [] => [Println "empty"]
     | _ => (Printf "%.2f " <$> q) ++ [Println ""]
     end.

Definition average_of (q : list float) : float :=
  match q with
  | [] => 0%float
  | _ => (fold_left PrimFloat.add q 0 / float64_of_int (Z.of_nat (length q)))%float
  end.

(** ** Evaluation on small inputs *)

Example Push_3 :
  match NewCircularBuffer 2 with
  | Ok cb => (Push 1 ;; Push 2 ;; Push 3 ;; PrintBuffer) cb
  | Panic p => Panic p
  end = Ok ([Print "Buffer contents (tail to head): "; Printf "%.2f " 2; Printf "%.2f " 3; Println ""],
            mkCircularBuffer [3%float; 2%float] 2 1 1 2).
Proof. vm_compute. reflexivity. Qed.

(** main does not panic.  It prints, for each i from 0 to 6, the value pushed,
    the value handed back by Push for i = 5 and i = 6 only (0 and 1), and the
    buffer after the push, which holds the values pushed so far until it
    slides over the last five; it ends with the average 4 of 2, 3, 4, 5, 6. *)
Example main_output :
  main = Ok
    [Printf "Pushed %.2f" 0; Println "";
     Print "Buffer contents (tail to head): "; Printf "%.2f " 0; Println ""; Println "";
     Printf "Pushed %.2f" 1; Println "";
     Print "Buffer contents (tail to head): "; Printf "%.2f " 0; Printf "%.2f " 1;
     Println ""; Println "";
     Printf "Pushed %.2f" 2; Println "";
     Print "Buffer contents (tail to head): "; Printf "%.2f " 0; Printf "%.2f " 1;
     Printf "%.2f " 2; Println ""; Println "";
     Printf "Pushed %.2f" 3; Println "";
     Print "Buffer contents (tail to head): "; Printf "%.2f " 0; Printf "%.2f " 1;
     Printf "%.2f " 2; Printf "%.2f " 3; Println ""; Println "";
     Printf "Pushed %.2f" 4; Println "";
     Print "Buffer contents (tail to head): "; Printf "%.2f " 0; Printf "%.2f " 1;
     Printf "%.2f " 2; Printf "%.2f " 3; Printf "%.2f " 4; Println ""; Println "";
     Printf "Pushed %.2f" 5; Printf ", Popped %.2f" 0; Println "";
     Print "Buffer contents (tail to head): "; Printf "%.2f " 1; Printf "%.2f " 2;
     Printf "%.2f " 3; Printf "%.2f " 4; Printf "%.2f " 5; Println ""; Println "";
     Printf "Pushed %.2f" 6; Printf ", Popped %.2f" 1; Println "";
     Print "Buffer contents (tail to head): "; Printf "%.2f " 2; Printf "%.2f " 3;
     Printf "%.2f " 4; Printf "%.2f " 5; Printf "%.2f " 6; Println ""; Println "";
     Printf "Average: %.2f\n" 4].
Proof. vm_compute. reflexivity. Qed.

Example float64_of_int_values :
  float64_of_int 5 = 5%float /\ float64_of_int (-3) = (-3)%float /\
  float64_of_int min_int = (-9223372036854775808)%float /\
  float64_of_int max_int = 9223372036854775808%float.
Proof. vm_compute. repeat split; reflexivity. Qed.

(** ** Arithmetic of indices *)

Lemma wrap64_small (x : Z) : is_int x -> wrap64 x = x.
Proof.
  unfold is_int, wrap64, min_int, max_int. intros H.
  rewrite Z.mod_small; lia.
Qed.

Lemma maxAlloc_int (n x : Z) : 8 * n <= maxAlloc -> 0 <= x <= 2 * n -> is_int x.
Proof. unfold maxAlloc, is_int, min_int, max_int. lia. Qed.

Lemma slot_range (cb : CircularBuffer) (i : Z) :
  0 < size cb -> 0 <= slot cb i < size cb.
Proof. intros H. unfold slot. apply Z.mod_pos_bound. exact H. Qed.

Lemma mod_shift (t i n : Z) :
  0 <= t < n -> 0 <= i <= n ->
  (t + i) mod n = if t + i <? n then t + i else t + i - n.
Proof.
  intros Ht Hi. destruct (Z.ltb_spec (t + i) n).
  - apply Z.mod_small. lia.
  - symmetry. apply (Z.mod_unique (t + i) n 1); lia.
Qed.

Lemma slot_succ (cb : CircularBuffer) (i : Z) :
  0 < size cb -> slot cb (i + 1) = (slot cb i + 1) mod size cb.
Proof.
  intros H. unfold slot. rewrite Zplus_mod_idemp_l. f_equal. lia.
Qed.

(** ** The primitives where they do not panic *)

Lemma index_in (b : list float) (i : Z) (cb : CircularBuffer) :
  0 <= i < Z.of_nat (length b) -> index b i cb = Ok (b !!! Z.to_nat i, cb).
Proof.
  intros H. unfold index.
  replace ((0 <=? i) && (i <? Z.of_nat (length b))) with true by lia.
  destruct (b !! Z.to_nat i) as [x|] eqn:E.
  - rewrite (list_lookup_total_correct _ _ _ E). reflexivity.
  - apply lookup_ge_None in E. lia.
Qed.

Lemma go_rem_nonneg (x n : Z) (cb : CircularBuffer) :
  0 <= x -> 0 < n -> go_rem x n cb = Ok (x mod n, cb).
Proof.
  intros Hx Hn. unfold go_rem.
  replace (n =? 0) with false by lia.
  rewrite Z.rem_mod_nonneg by lia. reflexivity.
Qed.

(** What Push does to a buffer in bounds, as one equation. *)
Lemma Push_in_bounds (item : float) (cb : CircularBuffer) :
  in_bounds cb ->
  Push item cb =
  Ok (if is_full cb then at_slot cb (tail cb) else 0%float,
      mkCircularBuffer (<[Z.to_nat (head cb) := item]> (buffer cb)) (size cb)
        ((head cb + 1) mod size cb)
        (if is_full cb then (tail cb + 1) mod size cb else tail cb)
        (if is_full cb then count cb else count cb + 1)).
Proof.
  destruct cb as [b n h t c]. intros [Hn Hl Ha Hh Ht Hc]. cbn in *.
  assert (Hw : forall x, 0 <= x <= n -> wrap64 x = x).
  { intros x Hx. apply wrap64_small, (maxAlloc_int n); lia. }
  unfold Push, is_full, at_slot, bind, gets, store, set_tail, set_count,
    set_head, set_buffer, ret. cbn.
  destruct (c =? n) eqn:Hfull; cbn.
  - rewrite index_in by lia. cbn.
    rewrite Hw by lia. rewrite go_rem_nonneg by lia. cbn.
    replace ((0 <=? h) && (h <? Z.of_nat (length b))) with true by lia. cbn.
    rewrite Hw by lia. rewrite go_rem_nonneg by lia. reflexivity.
  - replace ((0 <=? h) && (h <? Z.of_nat (length b))) with true by lia. cbn.
    rewrite !Hw by lia. rewrite go_rem_nonneg by lia. reflexivity.
Qed.

Lemma Pop_count_0 (cb : CircularBuffer) :
  count cb = 0 -> Pop cb = Ok ((0%float, false), cb).
Proof.
  intros Hc. unfold Pop, bind, gets. rewrite Hc. reflexivity.
Qed.

(** What Pop does to a non-empty buffer in bounds. *)
Lemma Pop_in_bounds (cb : CircularBuffer) :
  in_bounds cb -> count cb <> 0 ->
  Pop cb =
  Ok ((at_slot cb (tail cb), true),
      mkCircularBuffer (buffer cb) (size cb) (head cb)
        ((tail cb + 1) mod size cb) (count cb - 1)).
Proof.
  destruct cb as [b n h t c]. intros [Hn Hl Ha Hh Ht Hc] Hne. cbn in *.
  assert (Hw : forall x, 0 <= x <= n -> wrap64 x = x).
  { intros x Hx. apply wrap64_small, (maxAlloc_int n); lia. }
  unfold Pop, at_slot, bind, gets, set_tail, set_count, ret. cbn.
  replace (c =? 0) with false by lia. cbn.
  rewrite index_in by lia. cbn.
  rewrite Hw by lia. rewrite go_rem_nonneg by lia. cbn.
  rewrite Hw by lia. reflexivity.
Qed.

(** ** Sequences of slots *)

Lemma fmap_seqZ_snoc {A} (f : Z -> A) (c : Z) :
  0 <= c -> f <$> seqZ 0 (c + 1) = (f <$> seqZ 0 c) ++ [f c].
Proof.
  intros Hc. rewrite seqZ_app by lia. rewrite fmap_app. reflexivity.
Qed.

Lemma fmap_seqZ_drop1 {A} (f : Z -> A) (c : Z) :
  0 < c -> drop 1 (f <$> seqZ 0 c) = (fun i => f (i + 1)) <$> seqZ 0 (c - 1).
Proof.
  intros Hc. rewrite seqZ_cons by lia. cbn. rewrite drop_0.
  replace (Z.succ 0) with (1 + 0) by lia. rewrite <- fmap_add_seqZ.
  rewrite <- list_fmap_compose. replace (Z.pred c) with (c - 1) by lia.
  apply list_fmap_ext. intros _ x _. cbn. f_equal. lia.
Qed.

Lemma fmap_seqZ_ext {A} (f g : Z -> A) (c : Z) :
  (forall i, 0 <= i < c -> f i = g i) -> f <$> seqZ 0 c = g <$> seqZ 0 c.
Proof.
  intros H. apply list_fmap_ext. intros n x Hx.
  apply lookup_seqZ in Hx. apply H. lia.
Qed.

Lemma contents_length (cb : CircularBuffer) :
  length (contents cb) = Z.to_nat (count cb).
Proof. unfold contents. rewrite length_fmap. apply length_seqZ. Qed.

Lemma contents_lookup (cb : CircularBuffer) (i : Z) :
  0 <= i < count cb ->
  contents cb !! Z.to_nat i = Some (at_slot cb (slot cb i)).
Proof.
  intros Hi. unfold contents. rewrite list_lookup_fmap.
  rewrite lookup_seqZ_lt by lia. cbn. do 3 f_equal. lia.
Qed.

(** Two of the first [size] offsets from [tail] never share a slot. *)
Lemma slot_inj (cb : CircularBuffer) (i j : Z) :
  in_bounds cb -> 0 <= i < size cb -> 0 <= j < size cb ->
  slot cb i = slot cb j -> i = j.
Proof.
  intros [Hn _ _ _ Ht _] Hi Hj. unfold slot.
  rewrite !mod_shift by lia.
  destruct (Z.ltb_spec (tail cb + i) (size cb)), (Z.ltb_spec (tail cb + j) (size cb)); lia.
Qed.

Lemma slot_0 (cb : CircularBuffer) : in_bounds cb -> slot cb 0 = tail cb.
Proof.
  intros [Hn _ _ _ Ht _]. unfold slot. rewrite Z.add_0_r. apply Z.mod_small. lia.
Qed.

Lemma slot_size (cb : CircularBuffer) : in_bounds cb -> slot cb (size cb) = tail cb.
Proof.
  intros [Hn _ _ _ Ht _]. unfold slot.
  rewrite mod_shift by lia. destruct (Z.ltb_spec (tail cb + size cb) (size cb)); lia.
Qed.

(** ** Push and Pop against the queue of live elements *)

Lemma Push_wf (item : float) (cb : CircularBuffer) :
  wf cb ->
  exists cb',
    Push item cb = Ok (if is_full cb then at_slot cb (tail cb) else 0%float, cb') /\
    wf cb' /\ size cb' = size cb /\
    contents cb' = (if is_full cb then drop 1 (contents cb) else contents cb) ++ [item].
Proof.
  intros [Hb Hh]. rewrite (Push_in_bounds item cb Hb).
  pose proof Hb as [Hn Hl Ha Hhr Ht Hc].
  assert (Hh1 : 0 <= (head cb + 1) mod size cb < size cb) by (apply Z.mod_pos_bound; lia).
  assert (Ht1 : 0 <= (tail cb + 1) mod size cb < size cb) by (apply Z.mod_pos_bound; lia).
  unfold is_full. destruct (Z.eqb_spec (count cb) (size cb)) as [Hfull|Hnot];
    match goal with |- exists _, Ok (_, ?c) = _ /\ _ => set (cb' := c) end;
    exists cb'; (split; [reflexivity|]);
    assert (Hne : forall j, 0 <= j -> j <> head cb -> at_slot cb' j = at_slot cb j)
      by (intros j Hj Hd; unfold at_slot, cb'; cbn;
          apply list_lookup_total_insert_ne; lia);
    assert (Heq : at_slot cb' (head cb) = item)
      by (unfold at_slot, cb'; cbn; apply list_lookup_total_insert_eq; lia);
    assert (Hb' : in_bounds cb')
      by (constructor; unfold cb'; cbn; rewrite ?length_insert; lia).
  - (* full: the oldest element leaves; [head] and [tail] coincide *)
    assert (Hht : head cb = tail cb) by (rewrite Hh, Hfull; apply slot_size, Hb).
    assert (Hs : forall i, slot cb' i = slot cb (i + 1)).
    { intros i. unfold slot, cb'; cbn. rewrite Zplus_mod_idemp_l. f_equal. lia. }
    split; [|split; [reflexivity|]].
    + split; [exact Hb'|]. rewrite Hs. unfold cb'; cbn.
      rewrite slot_succ, <- Hh by lia. reflexivity.
    + unfold contents. change (count cb') with (count cb).
      rewrite fmap_seqZ_drop1 by lia.
      replace (count cb) with ((count cb - 1) + 1) at 1 by lia.
      rewrite fmap_seqZ_snoc by lia. f_equal.
      * apply fmap_seqZ_ext. intros i Hi. rewrite Hs.
        pose proof (slot_range cb (i + 1) Hn).
        apply Hne; [lia|]. rewrite Hht, <- (slot_0 cb Hb). intros E.
        apply slot_inj in E; [lia|exact Hb|lia|lia].
      * rewrite Hs. replace (count cb - 1 + 1) with (size cb) by lia.
        rewrite (slot_size cb Hb), <- Hht, Heq. reflexivity.
  - (* room left: one more live element, in the slot [head] *)
    assert (Hs : forall i, slot cb' i = slot cb i) by reflexivity.
    split; [|split; [reflexivity|]].
    + split; [exact Hb'|]. rewrite Hs. unfold cb'; cbn.
      rewrite slot_succ, <- Hh by lia. reflexivity.
    + unfold contents. change (count cb') with (count cb + 1).
      rewrite fmap_seqZ_snoc by lia. f_equal.
      * apply fmap_seqZ_ext. intros i Hi. rewrite Hs.
        pose proof (slot_range cb i Hn).
        apply Hne; [lia|]. rewrite Hh. intros E.
        apply slot_inj in E; [lia|exact Hb|lia|lia].
      * rewrite Hs, <- Hh, Heq. reflexivity.
Qed.

Lemma Pop_wf (cb : CircularBuffer) :
  wf cb -> count cb <> 0 ->
  exists cb',
    Pop cb = Ok ((at_slot cb (tail cb), true), cb') /\
    wf cb' /\ size cb' = size cb /\
    contents cb' = drop 1 (contents cb).
Proof.
  intros [Hb Hh] Hne. rewrite (Pop_in_bounds cb Hb Hne).
  pose proof Hb as [Hn Hl Ha Hhr Ht Hc].
  assert (Ht1 : 0 <= (tail cb + 1) mod size cb < size cb) by (apply Z.mod_pos_bound; lia).
  match goal with |- exists _, Ok (_, ?c) = _ /\ _ => set (cb' := c) end.
  exists cb'. split; [reflexivity|].
  assert (Hs : forall i, slot cb' i = slot cb (i + 1)).
  { intros i. unfold slot, cb'; cbn. rewrite Zplus_mod_idemp_l. f_equal. lia. }
  split; [|split; [reflexivity|]].
  - split; [constructor; unfold cb'; cbn; lia|].
    rewrite Hs. unfold cb'; cbn. rewrite Hh. f_equal. lia.
  - unfold contents. change (count cb') with (count cb - 1).
    rewrite fmap_seqZ_drop1 by lia.
    apply fmap_seqZ_ext. intros i Hi. rewrite Hs. reflexivity.
Qed.

Lemma contents_head (cb : CircularBuffer) :
  in_bounds cb -> count cb <> 0 ->
  contents cb !! 0%nat = Some (at_slot cb (tail cb)).
Proof.
  intros Hb Hne. pose proof Hb as [Hn Hl Ha Hhr Ht Hc].
  change 0%nat with (Z.to_nat 0).
  rewrite (contents_lookup cb 0) by lia. rewrite (slot_0 cb Hb). reflexivity.
Qed.

(** ** Construction *)

Lemma NewCircularBuffer_Ok (k : Z) (cb : CircularBuffer) :
  NewCircularBuffer k = Ok cb ->
  0 <= k /\ 8 * k <= maxAlloc /\
  cb = mkCircularBuffer (replicate (Z.to_nat k) 0%float) k 0 0 0.
Proof.
  unfold NewCircularBuffer, make.
  destruct (Z.ltb_spec k 0), (Z.ltb_spec maxAlloc (8 * k)); cbn;
    intros E; inversion E; subst. repeat split; lia.
Qed.

Lemma NewCircularBuffer_returns (k : Z) :
  0 <= k -> 8 * k <= maxAlloc ->
  NewCircularBuffer k = Ok (mkCircularBuffer (replicate (Z.to_nat k) 0%float) k 0 0 0).
Proof.
  intros Hk Ha. unfold NewCircularBuffer, make.
  replace ((k <? 0) || (maxAlloc <? 8 * k)) with false by lia. reflexivity.
Qed.

Lemma NewCircularBuffer_wf (k : Z) (cb : CircularBuffer) :
  0 < k -> NewCircularBuffer k = Ok cb ->
  wf cb /\ size cb = k /\ contents cb = [].
Proof.
  intros Hk E. apply NewCircularBuffer_Ok in E as (_ & Ha & ->).
  split; [|split; reflexivity].
  split.
  - constructor; cbn; rewrite ?length_replicate; lia.
  - unfold slot; cbn. rewrite Z.mod_0_l; lia.
Qed.

Lemma holds_length (k : Z) (q : list float) (cb : CircularBuffer) :
  holds k q cb -> Z.of_nat (length q) = count cb.
Proof.
  intros ([Hb _] & _ & <-). rewrite contents_length.
  destruct Hb. lia.
Qed.

Lemma run_op_holds (k : Z) (q : list float) (cb : CircularBuffer) (o : op) :
  holds k q cb ->
  exists cb', run_op o cb = Ok (tt, cb') /\ holds k (queue_step k q o) cb'.
Proof.
  intros H. pose proof (holds_length _ _ _ H) as Hlen.
  destruct H as (Hwf & Hk & Hq). destruct o as [item|]; cbn.
  - destruct (Push_wf item cb Hwf) as (cb' & E & Hwf' & Hk' & Hq').
    exists cb'. unfold bind. rewrite E. split; [reflexivity|].
    split; [exact Hwf'|]. split; [congruence|].
    rewrite Hq', Hq, Hlen, <- Hk. unfold is_full.
    destruct (count cb =? size cb); reflexivity.
  - destruct (Z.eq_dec (count cb) 0) as [H0|Hne].
    + exists cb. unfold bind. rewrite (Pop_count_0 cb H0). split; [reflexivity|].
      split; [exact Hwf|]. split; [exact Hk|].
      destruct q; [exact Hq|cbn in Hlen; lia].
    + destruct (Pop_wf cb Hwf Hne) as (cb' & E & Hwf' & Hk' & Hq').
      exists cb'. unfold bind. rewrite E. split; [reflexivity|].
      split; [exact Hwf'|]. split; [congruence|]. rewrite Hq', Hq. reflexivity.
Qed.

Lemma run_ops_holds (k : Z) (ops : list op) (q : list float) (cb : CircularBuffer) :
  holds k q cb ->
  exists cb', run_ops ops cb = Ok (tt, cb') /\ holds k (fold_left (queue_step k) ops q) cb'.
Proof.
  revert q cb. induction ops as [|o ops IH]; intros q cb H; cbn.
  - exists cb. split; [reflexivity|exact H].
  - destruct (run_op_holds k q cb o H) as (cb1 & E1 & H1).
    destruct (IH _ _ H1) as (cb2 & E2 & H2).
    exists cb2. unfold bind. rewrite E1. split; assumption.
Qed.

(** Every buffer that the calls of a client can produce is in bounds, so the
    properties stated below for buffers in bounds cover all of them. *)
Lemma reachable_in_bounds (k : Z) (ops : list op) (cb0 cb : CircularBuffer) :
  0 < k -> NewCircularBuffer k = Ok cb0 -> run_ops ops cb0 = Ok (tt, cb) ->
  in_bounds cb /\ wf cb.
Proof.
  intros Hk E Erun.
  destruct (NewCircularBuffer_wf k cb0 Hk E) as (Hwf0 & Hk0 & Hq0).
  destruct (run_ops_holds k ops [] cb0 (conj Hwf0 (conj Hk0 Hq0))) as (cb' & E' & H).
  rewrite Erun in E'. inversion E'; subst cb'.
  destruct H as (Hwf & _). split; [exact (proj1 Hwf)|exact Hwf].
Qed.

(** ** The two loops over the live elements *)

(** One iteration's read of the [i]-th oldest element, followed by [K]. *)
Lemma read_slot {A} (cb : CircularBuffer) (i : Z) (K : float -> M A) :
  in_bounds cb -> 0 <= i <= size cb ->
  (let* t := gets tail in
   let* sz := gets size in
   let* idx := go_rem (wrap64 (t + i)) sz in
   let* b := gets buffer in
   let* x := index b idx in
   K x) cb = K (at_slot cb (slot cb i)) cb.
Proof.
  intros [Hn Hl Ha Hh Ht Hc] Hi. unfold bind at 1 2, gets at 1 2.
  rewrite wrap64_small by (apply (maxAlloc_int (size cb)); lia).
  unfold bind at 1. rewrite go_rem_nonneg by lia.
  unfold bind at 1, gets at 1. unfold bind at 1.
  pose proof (slot_range cb i Hn) as Hs. unfold slot in Hs.
  rewrite index_in by lia. reflexivity.
Qed.

Lemma Average_loop_in_bounds (cb : CircularBuffer) (n : nat) (i : Z) (sum : float) :
  in_bounds cb -> 0 <= i -> i + Z.of_nat n <= size cb ->
  Average_loop n i sum cb =
  Ok (fold_left PrimFloat.add
        ((fun j => at_slot cb (slot cb j)) <$> seqZ i (Z.of_nat n)) sum, cb).
Proof.
  intros Hb. revert i sum. induction n as [|n IH]; intros i sum Hi Hn.
  - reflexivity.
  - cbn [Average_loop]. rewrite read_slot by (try exact Hb; lia).
    destruct Hb as [Hp Hl Ha Hh Ht Hc] eqn:Eb.
    rewrite wrap64_small by (apply (maxAlloc_int (size cb)); lia).
    rewrite IH by lia.
    rewrite (seqZ_cons i (Z.of_nat (S n))) by lia.
    replace (Z.pred (Z.of_nat (S n))) with (Z.of_nat n) by lia.
    reflexivity.
Qed.

Lemma Average_in_bounds (cb : CircularBuffer) :
  in_bounds cb -> count cb <> 0 ->
  Average cb =
  Ok ((fold_left PrimFloat.add (contents cb) 0 / float64_of_int (count cb))%float, cb).
Proof.
  intros Hb Hne. pose proof Hb as [Hp Hl Ha Hh Ht Hc].
  unfold Average, bind at 1, gets at 1.
  replace (count cb =? 0) with false by lia.
  unfold bind at 1. rewrite Average_loop_in_bounds by (try exact Hb; lia).
  rewrite Z2Nat.id by lia. reflexivity.
Qed.

Lemma PrintBuffer_loop_in_bounds (cb : CircularBuffer) (n : nat) (i : Z) :
  in_bounds cb -> 0 <= i -> i + Z.of_nat n <= size cb ->
  PrintBuffer_loop n i cb =
  Ok ((fun j => Printf "%.2f " (at_slot cb (slot cb j))) <$> seqZ i (Z.of_nat n), cb).
Proof.
  intros Hb. revert i. induction n as [|n IH]; intros i Hi Hn.
  - reflexivity.
  - cbn [PrintBuffer_loop]. rewrite read_slot by (try exact Hb; lia).
    destruct Hb as [Hp Hl Ha Hh Ht Hc] eqn:Eb.
    rewrite wrap64_small by (apply (maxAlloc_int (size cb)); lia).
    unfold bind at 1. rewrite IH by lia.
    rewrite (seqZ_cons i (Z.of_nat (S n))) by lia.
    replace (Z.pred (Z.of_nat (S n))) with (Z.of_nat n) by lia.
    reflexivity.
Qed.

Lemma PrintBuffer_in_bounds (cb : CircularBuffer) :
  in_bounds cb -> count cb <> 0 ->
  PrintBuffer cb =
  Ok (Print "Buffer contents (tail to head): "
        :: (Printf "%.2f " <$> contents cb) ++ [Println ""], cb).
Proof.
  intros Hb Hne. pose proof Hb as [Hp Hl Ha Hh Ht Hc].
  unfold PrintBuffer, bind at 1, gets at 1.
  replace (count cb =? 0) with false by lia.
  unfold bind at 1. rewrite PrintBuffer_loop_in_bounds by (try exact Hb; lia).
  rewrite Z2Nat.id by lia. unfold contents. rewrite <- list_fmap_compose.
  reflexivity.
Qed.

(** ** Methods that only read *)

Lemma read_only_ret {A} (a : A) : read_only (ret a).
Proof. intros cb a' cb' E. inversion E. reflexivity. Qed.

Lemma read_only_gets {A} (f : CircularBuffer -> A) : read_only (gets f).
Proof. intros cb a cb' E. inversion E. reflexivity. Qed.

Lemma read_only_throw {A} (p : panic) : read_only (@throw A p).
Proof. intros cb a cb' E. inversion E. Qed.

Lemma read_only_bind {A B} (m : M A) (f : A -> M B) :
  read_only m -> (forall a, read_only (f a)) -> read_only (bind m f).
Proof.
  intros Hm Hf cb b cb' E. unfold bind in E.
  destruct (m cb) as [[a cb1]|p] eqn:Em; [|inversion E].
  apply Hm in Em. subst cb1. exact (Hf a cb b cb' E).
Qed.

Lemma read_only_go_rem (x y : Z) : read_only (go_rem x y).
Proof.
  unfold go_rem. destruct (y =? 0); [apply read_only_throw|apply read_only_ret].
Qed.

Lemma read_only_index (b : list float) (i : Z) : read_only (index b i).
Proof.
  unfold index. destruct ((0 <=? i) && (i <? Z.of_nat (length b))).
  - destruct (b !! Z.to_nat i); [apply read_only_ret|apply read_only_throw].
  - apply read_only_throw.
Qed.

Create HintDb read_only discriminated.
#[local] Hint Resolve read_only_ret read_only_gets read_only_throw
  read_only_go_rem read_only_index : read_only.

Ltac read_only_step :=
  first [ solve [auto with read_only] | apply read_only_bind; [|intros ?] ].

Lemma read_only_Average_loop (n : nat) (i : Z) (sum : float) :
  read_only (Average_loop n i sum).
Proof.
  revert i sum. induction n as [|n IH]; intros i sum; cbn [Average_loop].
  - apply read_only_ret.
  - repeat read_only_step.
Qed.

Lemma read_only_Average : read_only Average.
Proof.
  unfold Average. apply read_only_bind; [apply read_only_gets|intros c].
  destruct (c =? 0); [apply read_only_ret|].
  apply read_only_bind; [apply read_only_Average_loop|intros sum].
  repeat read_only_step.
Qed.

Lemma read_only_PrintBuffer_loop (n : nat) (i : Z) :
  read_only (PrintBuffer_loop n i).
Proof.
  revert i. induction n as [|n IH]; intros i; cbn [PrintBuffer_loop].
  - apply read_only_ret.
  - repeat read_only_step.
Qed.

Lemma read_only_PrintBuffer : read_only PrintBuffer.
Proof.
  unfold PrintBuffer. apply read_only_bind; [apply read_only_gets|intros c].
  destruct (c =? 0); [apply read_only_ret|].
  apply read_only_bind; [apply read_only_PrintBuffer_loop|intros items].
  apply read_only_ret.
Qed.

Lemma calls_read_only {A} (m : M A) (n : nat) (cb : CircularBuffer) (a : A) (cb' : CircularBuffer) :
  read_only m -> m cb = Ok (a, cb') ->
  cb' = cb /\ calls m n cb = Ok (replicate n a, cb).
Proof.
  intros Hm E. pose proof (Hm _ _ _ E) as ->. split; [reflexivity|].
  induction n as [|n IH]; [reflexivity|].
  cbn [calls replicate]. unfold bind at 1. rewrite E.
  unfold bind at 1. rewrite IH. reflexivity.
Qed.

(** ** Filling a buffer *)

Lemma Pushes_holds (k : Z) (items q : list float) (cb : CircularBuffer) :
  holds k q cb -> Z.of_nat (length q + length items) <= k ->
  exists cb',
    Pushes items cb = Ok ((fun _ => (false, 0%float)) <$> items, cb') /\
    holds k (q ++ items) cb'.
Proof.
  revert q cb. induction items as [|item items IH]; intros q cb H Hlen.
  - exists cb. rewrite app_nil_r. split; [reflexivity|exact H].
  - pose proof (holds_length _ _ _ H) as Hc.
    destruct H as (Hwf & Hk & Hq).
    assert (Hfull : is_full cb = false) by (unfold is_full; cbn in Hlen; lia).
    destruct (Push_wf item cb Hwf) as (cb1 & E1 & Hwf1 & Hk1 & Hq1).
    rewrite Hfull in E1, Hq1.
    destruct (IH (q ++ [item]) cb1) as (cb2 & E2 & H2).
    { split; [exact Hwf1|]. split; congruence. }
    { rewrite length_app. cbn in *. lia. }
    exists cb2. cbn [Pushes]. unfold bind at 1, gets at 1. rewrite Hfull.
    unfold bind at 1. rewrite E1. unfold bind at 1. rewrite E2.
    split; [reflexivity|]. rewrite <- app_assoc in H2. exact H2.
Qed.

(** ** The properties of the buffer *)

(** C1. For a buffer constructed with capacity k > 0, after any sequence of
    Push and Pop calls (none of which panics): 0 <= count <= size; the live
    elements, count of them, are in the slots (tail + i) mod size for i in
    [0, count), oldest first; when 0 < count < size, head is
    (tail + count) mod size; and when count = size, head = tail. *)
Theorem invariant_after_calls (k : Z) (ops : list op) (cb0 : CircularBuffer) :
  0 < k -> NewCircularBuffer k = Ok cb0 ->
  exists cb,
    run_ops ops cb0 = Ok (tt, cb) /\
    size cb = k /\
    0 <= count cb <= size cb /\
    Z.of_nat (length (queue_after k ops)) = count cb /\
    (forall i, 0 <= i < count cb ->
       buffer cb !! Z.to_nat ((tail cb + i) mod size cb) = queue_after k ops !! Z.to_nat i) /\
    (0 < count cb < size cb -> head cb = (tail cb + count cb) mod size cb) /\
    (count cb = size cb -> head cb = tail cb).
Proof.
  intros Hk E. destruct (NewCircularBuffer_wf k cb0 Hk E) as (Hwf0 & Hk0 & Hq0).
  destruct (run_ops_holds k ops [] cb0) as (cb & Erun & H); [exact (conj Hwf0 (conj Hk0 Hq0))|].
  exists cb. pose proof (holds_length _ _ _ H) as Hlen.
  destruct H as ([Hb Hh] & Hsz & Hq). pose proof Hb as [Hn Hl Ha Hhr Ht Hc].
  split; [exact Erun|]. split; [exact Hsz|]. split; [exact Hc|].
  split; [exact Hlen|]. split; [|split].
  - intros i Hi. unfold queue_after. rewrite <- Hq.
    rewrite (contents_lookup cb i Hi). unfold at_slot, slot.
    apply list_lookup_lookup_total_lt.
    pose proof (slot_range cb i Hn) as Hs. unfold slot in Hs. lia.
  - intros _. exact Hh.
  - intros Hfull. rewrite Hh, Hfull. apply (slot_size cb Hb).
Qed.

Lemma invariant_after_calls_witness :
  0 < 3 /\
  NewCircularBuffer 3 = Ok (mkCircularBuffer [0; 0; 0]%float 3 0 0 0) /\
  exists cb,
    run_ops [OpPush 1; OpPush 2; OpPop; OpPush 3; OpPush 4; OpPush 5]
      (mkCircularBuffer [0; 0; 0]%float 3 0 0 0) = Ok (tt, cb) /\
    size cb = 3 /\ 0 <= count cb <= size cb.
Proof.
  split; [lia|]. split; [reflexivity|].
  destruct (invariant_after_calls 3
              [OpPush 1; OpPush 2; OpPop; OpPush 3; OpPush 4; OpPush 5]
              (mkCircularBuffer [0; 0; 0]%float 3 0 0 0))
    as (cb & Erun & Hsz & Hc & _); [lia|reflexivity|].
  exists cb. repeat split; tauto.
Defined.

(** C2. For every capacity k > 0 and values v0, ..., v(k-1), vk: on a new
    buffer of capacity k, pushing v0 .. v(k-1) succeeds without taking the
    full branch (each push returns the zero value); the push of vk that
    follows returns v0; and PrintBuffer then prints v1, ..., vk in that
    order. *)
Theorem fifo_eviction (k : Z) (v0 : float) (vs : list float) (vk : float)
    (cb0 : CircularBuffer) :
  NewCircularBuffer k = Ok cb0 ->
  Z.of_nat (length (v0 :: vs)) = k ->
  exists cb1 cb2,
    Pushes (v0 :: vs) cb0 = Ok ((fun _ => (false, 0%float)) <$> (v0 :: vs), cb1) /\
    is_full cb1 = true /\
    Push vk cb1 = Ok (v0, cb2) /\
    PrintBuffer cb2 =
      Ok (Print "Buffer contents (tail to head): "
            :: (Printf "%.2f " <$> (vs ++ [vk])) ++ [Println ""], cb2) /\
    contents cb2 = vs ++ [vk].
Proof.
  intros E Hlen.
  assert (Hk : 0 < k) by (cbn [length] in Hlen; lia).
  destruct (NewCircularBuffer_wf k cb0 Hk E) as (Hwf0 & Hk0 & Hq0).
  destruct (Pushes_holds k (v0 :: vs) [] cb0) as (cb1 & E1 & H1);
    [exact (conj Hwf0 (conj Hk0 Hq0))|cbn [length] in *; lia|].
  cbn [app] in H1. pose proof (holds_length _ _ _ H1) as Hc1.
  destruct H1 as (Hwf1 & Hk1 & Hq1).
  assert (Hfull : is_full cb1 = true) by (unfold is_full; lia).
  destruct (Push_wf vk cb1 Hwf1) as (cb2 & E2 & Hwf2 & Hk2 & Hq2).
  rewrite Hfull in E2, Hq2. rewrite Hq1 in Hq2. cbn [drop] in Hq2.
  assert (Hhead : at_slot cb1 (tail cb1) = v0).
  { destruct Hwf1 as [Hb1 _].
    assert (Hne : count cb1 <> 0) by (cbn [length] in Hc1; lia).
    pose proof (contents_head cb1 Hb1 Hne) as Hd. rewrite Hq1 in Hd.
    cbn in Hd. congruence. }
  rewrite Hhead in E2.
  exists cb1, cb2. repeat split; try assumption.
  destruct Hwf2 as [Hb2 _]. rewrite (PrintBuffer_in_bounds cb2 Hb2).
  - rewrite Hq2. reflexivity.
  - assert (Hl2 := contents_length cb2). rewrite Hq2, length_app in Hl2.
    cbn [length] in Hl2. destruct Hb2. lia.
Qed.

Lemma fifo_eviction_witness :
  NewCircularBuffer 3 = Ok (mkCircularBuffer [0; 0; 0]%float 3 0 0 0) /\
  Z.of_nat (length [7; 8; 9]%float) = 3 /\
  exists cb1 cb2,
    Push 10 cb1 = Ok (7%float, cb2) /\ contents cb2 = [8; 9; 10]%float.
Proof.
  split; [reflexivity|]. split; [reflexivity|].
  destruct (fifo_eviction 3 7 [8; 9]%float 10 (mkCircularBuffer [0; 0; 0]%float 3 0 0 0))
    as (cb1 & cb2 & _ & _ & E & _ & Hq); [reflexivity|reflexivity|].
  exists cb1, cb2. split; [exact E|exact Hq].
Defined.

(** C3. A buffer of size 5 receives 0, 1, 2, 3, 4, 5, 6 in order: the first
    five pushes find the buffer not full and return the zero value, the push
    of 5 finds it full and returns 0, the push of 6 finds it full and returns
    1; afterwards the contents, oldest first, are 2, 3, 4, 5, 6, PrintBuffer
    prints them in that order, and Average returns 4. *)
Theorem scenario_capacity_5 :
  exists cb0 cb7,
    NewCircularBuffer 5 = Ok cb0 /\
    Pushes [0; 1; 2; 3; 4; 5; 6]%float cb0 =
      Ok ([(false, 0); (false, 0); (false, 0); (false, 0); (false, 0);
           (true, 0); (true, 1)]%float, cb7) /\
    contents cb7 = [2; 3; 4; 5; 6]%float /\
    (let* text := PrintBuffer in ret (printed_values text)) cb7 =
      Ok ([2; 3; 4; 5; 6]%float, cb7) /\
    Average cb7 = Ok (4%float, cb7).
Proof.
  eexists. eexists. split; [reflexivity|]. split; [vm_compute; reflexivity|].
  split; [vm_compute; reflexivity|]. split; vm_compute; reflexivity.
Qed.

(** C4. On a buffer in bounds (size > 0), Push does not panic.  If
    count = size, the element at slot tail is returned as the removed item,
    tail becomes (tail + 1) mod size and count is unchanged; otherwise count
    grows by 1, tail stays, and the zero value is returned.  In both cases the
    item is written into slot head and head becomes (head + 1) mod size. *)
Theorem Push_step (item : float) (cb : CircularBuffer) :
  in_bounds cb ->
  exists popped cb',
    Push item cb = Ok (popped, cb') /\
    buffer cb' = <[Z.to_nat (head cb) := item]> (buffer cb) /\
    buffer cb' !! Z.to_nat (head cb) = Some item /\
    head cb' = (head cb + 1) mod size cb /\
    size cb' = size cb /\
    (count cb = size cb ->
       buffer cb !! Z.to_nat (tail cb) = Some popped /\
       tail cb' = (tail cb + 1) mod size cb /\
       count cb' = count cb) /\
    (count cb <> size cb ->
       popped = 0%float /\ tail cb' = tail cb /\ count cb' = count cb + 1).
Proof.
  intros Hb. rewrite (Push_in_bounds item cb Hb).
  pose proof Hb as [Hn Hl Ha Hhr Ht Hc].
  do 2 eexists. split; [reflexivity|]. cbn.
  split; [reflexivity|]. split; [apply list_lookup_insert_eq; lia|].
  split; [reflexivity|]. split; [reflexivity|].
  unfold is_full. destruct (Z.eqb_spec (count cb) (size cb)) as [Hfull|Hnot].
  - split; [intros _|intros Hne; contradiction].
    split; [|split; reflexivity].
    unfold at_slot. apply list_lookup_lookup_total_lt. lia.
  - split; [intros Heq; contradiction|intros _].
    split; [reflexivity|split; reflexivity].
Qed.

Lemma Push_step_witness :
  in_bounds (mkCircularBuffer [3; 1; 2]%float 3 1 1 3) /\
  exists popped cb',
    Push 4 (mkCircularBuffer [3; 1; 2]%float 3 1 1 3) = Ok (popped, cb') /\
    buffer cb' = [3; 4; 2]%float /\ head cb' = 2.
Proof.
  assert (Hb : in_bounds (mkCircularBuffer [3; 1; 2]%float 3 1 1 3)).
  { constructor; cbn; unfold maxAlloc; lia. }
  split; [exact Hb|].
  destruct (Push_step 4 _ Hb) as (popped & cb' & E & Hbuf & _ & Hh & _).
  exists popped, cb'. split; [exact E|]. split; [exact Hbuf|exact Hh].
Defined.

(** C5 as stated fails: Push returns one float64 and nothing else.  On a
    new buffer of size 1, the first push of 0 finds the buffer not full and
    returns 0; the second push finds it full, removes the stored 0 and returns
    0 as well.  The two results are equal, so nothing in the result tells the
    removal of a 0 from no removal. *)
Lemma Push_result_ambiguous :
  let cb1 := mkCircularBuffer [0%float] 1 0 0 0 in
  let cb2 := mkCircularBuffer [0%float] 1 0 0 1 in
  NewCircularBuffer 1 = Ok cb1 /\
  is_full cb1 = false /\ Push 0 cb1 = Ok (0%float, cb2) /\
  is_full cb2 = true /\ Push 1 cb2 = Ok (0%float, mkCircularBuffer [1%float] 1 0 0 1).
Proof. vm_compute. repeat split; reflexivity. Qed.

(** C5, amended.  On a buffer in bounds Push returns a single value and no
    flag: the element at slot tail when count = size, and the zero value 0
    when count differs from size. *)
Theorem Push_returns_removed_item (item : float) (cb : CircularBuffer) :
  in_bounds cb ->
  exists popped cb',
    Push item cb = Ok (popped, cb') /\
    (is_full cb = true -> buffer cb !! Z.to_nat (tail cb) = Some popped) /\
    (is_full cb = false -> popped = 0%float).
Proof.
  intros Hb. rewrite (Push_in_bounds item cb Hb).
  pose proof Hb as [Hn Hl Ha Hhr Ht Hc].
  do 2 eexists. split; [reflexivity|].
  destruct (is_full cb); split; intros E; try discriminate E; [|reflexivity].
  unfold at_slot. apply list_lookup_lookup_total_lt. lia.
Qed.

Lemma Push_returns_removed_item_witness :
  in_bounds (mkCircularBuffer [3; 1; 2]%float 3 1 1 3) /\
  exists popped cb',
    Push 4 (mkCircularBuffer [3; 1; 2]%float 3 1 1 3) = Ok (popped, cb') /\
    [3; 1; 2]%float !! 1%nat = Some popped.
Proof.
  assert (Hb : in_bounds (mkCircularBuffer [3; 1; 2]%float 3 1 1 3)).
  { constructor; cbn; unfold maxAlloc; lia. }
  split; [exact Hb|].
  destruct (Push_returns_removed_item 4 _ Hb) as (popped & cb' & E & Hfull & _).
  exists popped, cb'. split; [exact E|]. apply Hfull. reflexivity.
Defined.

(** C6. On a buffer in bounds with count > 0, Pop returns the element stored
    at slot tail together with true, tail becomes (tail + 1) mod size, count
    decreases by 1, and buffer, size and head are unchanged. *)
Theorem Pop_step (cb : CircularBuffer) :
  in_bounds cb -> 0 < count cb ->
  exists item cb',
    Pop cb = Ok ((item, true), cb') /\
    buffer cb !! Z.to_nat (tail cb) = Some item /\
    tail cb' = (tail cb + 1) mod size cb /\
    count cb' = count cb - 1 /\
    buffer cb' = buffer cb /\ size cb' = size cb /\ head cb' = head cb.
Proof.
  intros Hb Hpos. rewrite (Pop_in_bounds cb Hb) by lia.
  pose proof Hb as [Hn Hl Ha Hhr Ht Hc].
  do 2 eexists. split; [reflexivity|]. cbn.
  split; [|repeat split].
  unfold at_slot. apply list_lookup_lookup_total_lt. lia.
Qed.

Lemma Pop_step_witness :
  in_bounds (mkCircularBuffer [3; 1; 2]%float 3 1 1 3) /\
  0 < count (mkCircularBuffer [3; 1; 2]%float 3 1 1 3) /\
  exists item cb',
    Pop (mkCircularBuffer [3; 1; 2]%float 3 1 1 3) = Ok ((item, true), cb') /\
    tail cb' = 2 /\ count cb' = 2.
Proof.
  assert (Hb : in_bounds (mkCircularBuffer [3; 1; 2]%float 3 1 1 3)).
  { constructor; cbn; unfold maxAlloc; lia. }
  split; [exact Hb|]. split; [cbn; lia|].
  destruct (Pop_step _ Hb) as (item & cb' & E & _ & Ht & Hc & _); [cbn; lia|].
  exists item, cb'. split; [exact E|]. split; [exact Ht|exact Hc].
Defined.

(** C7. On any buffer whose count is 0 (new, or drained to empty), Pop does
    not panic: it returns the zero value 0 together with false and leaves
    buffer, size, head, tail and count as they were. *)
Theorem Pop_empty (cb : CircularBuffer) :
  count cb = 0 -> Pop cb = Ok ((0%float, false), cb).
Proof.
  intros Hc. unfold Pop, bind, gets. rewrite Hc. reflexivity.
Qed.

Lemma Pop_empty_witness :
  count (mkCircularBuffer [7; 8]%float 2 1 1 0) = 0 /\
  (let* _ := Push 7 in let* _ := Push 8 in let* _ := Pop in Pop)
    (mkCircularBuffer [0; 0]%float 2 0 0 0) =
    Ok ((8%float, true), mkCircularBuffer [7; 8]%float 2 0 0 0) /\
  Pop (mkCircularBuffer [7; 8]%float 2 0 0 0) =
    Ok ((0%float, false), mkCircularBuffer [7; 8]%float 2 0 0 0) /\
  Pop (mkCircularBuffer [7; 8]%float 2 1 1 0) =
    Ok ((0%float, false), mkCircularBuffer [7; 8]%float 2 1 1 0).
Proof.
  split; [reflexivity|]. split; [vm_compute; reflexivity|].
  split; apply Pop_empty; reflexivity.
Defined.

(** C8. Average returns 0 when count = 0.  On a buffer in bounds with
    count <> 0 it returns the sum of the count elements in the slots
    (tail + i) mod size, i = 0, ..., count - 1, added in that order to 0,
    divided by float64(count); it leaves the buffer as it was. *)
Theorem Average_value (cb : CircularBuffer) :
  (count cb = 0 -> Average cb = Ok (0%float, cb)) /\
  (in_bounds cb -> count cb <> 0 ->
   Average cb =
   Ok ((fold_left PrimFloat.add
          ((fun i => buffer cb !!! Z.to_nat ((tail cb + i) mod size cb))
             <$> seqZ 0 (count cb)) 0
        / float64_of_int (count cb))%float, cb)).
Proof.
  split.
  - intros Hc. unfold Average, bind, gets. rewrite Hc. reflexivity.
  - intros Hb Hne. exact (Average_in_bounds cb Hb Hne).
Qed.

Lemma Average_value_witness :
  Average (mkCircularBuffer [0; 0; 0]%float 3 0 0 0) =
    Ok (0%float, mkCircularBuffer [0; 0; 0]%float 3 0 0 0) /\
  Average (mkCircularBuffer [4; 1; 2; 3]%float 4 1 1 4) =
    Ok (2.5%float, mkCircularBuffer [4; 1; 2; 3]%float 4 1 1 4).
Proof.
  split.
  - apply (proj1 (Average_value _)). reflexivity.
  - rewrite (proj2 (Average_value _)).
    + vm_compute. reflexivity.
    + constructor; cbn; unfold maxAlloc; lia.
    + cbn. lia.
Defined.

(** C9 as stated fails at capacity 0: NewCircularBuffer makes no check, so
    it returns a buffer with no slots, and the first Push on that buffer
    reads slot 0 of an empty slice. *)
Lemma capacity_0_accepted :
  NewCircularBuffer 0 = Ok (mkCircularBuffer [] 0 0 0 0) /\
  Push 1 (mkCircularBuffer [] 0 0 0 0) = Panic (IndexOutOfRange 0 0).
Proof. split; reflexivity. Qed.

Lemma run_ops_capacity_0 (ops : list op) :
  run_ops ops (mkCircularBuffer [] 0 0 0 0) = Ok (tt, mkCircularBuffer [] 0 0 0 0) \/
  run_ops ops (mkCircularBuffer [] 0 0 0 0) = Panic (IndexOutOfRange 0 0).
Proof.
  induction ops as [|[item|] ops IH].
  - left. reflexivity.
  - right. reflexivity.
  - exact IH.
Qed.

(** C9, amended.  A negative capacity is refused by make, which panics, so
    no buffer is returned.  Capacity 0 is accepted: the buffer returned has
    no slots; on it Pop returns (0, false), Average returns 0 and PrintBuffer
    prints the empty marker, each leaving the buffer as it was; every Push
    panics on an out-of-range access to slot 0; and no sequence of Push and
    Pop calls reaches a modulo by zero. *)
Theorem nonpositive_capacity (k : Z) :
  k <= 0 ->
  (k < 0 /\ NewCircularBuffer k = Panic MakesliceLenOutOfRange) \/
  (k = 0 /\
   exists cb,
     NewCircularBuffer k = Ok cb /\ buffer cb = [] /\
     Pop cb = Ok ((0%float, false), cb) /\
     Average cb = Ok (0%float, cb) /\
     PrintBuffer cb =
       Ok ([Print "Buffer contents (tail to head): "; Println "empty"], cb) /\
     (forall item, Push item cb = Panic (IndexOutOfRange 0 0)) /\
     (forall ops, run_ops ops cb <> Panic IntegerDivideByZero)).
Proof.
  intros Hk. destruct (Z.ltb_spec k 0) as [Hneg|Hge].
  - left. split; [exact Hneg|]. unfold NewCircularBuffer, make.
    replace (k <? 0) with true by lia. reflexivity.
  - right. assert (k = 0) as -> by lia. split; [reflexivity|].
    exists (mkCircularBuffer [] 0 0 0 0).
    split; [reflexivity|]. split; [reflexivity|]. split; [reflexivity|].
    split; [reflexivity|]. split; [reflexivity|]. split; [reflexivity|].
    intros ops. destruct (run_ops_capacity_0 ops) as [E|E]; rewrite E; discriminate.
Qed.

Lemma nonpositive_capacity_witness :
  (-1 <= 0 /\ NewCircularBuffer (-1) = Panic MakesliceLenOutOfRange) /\
  (0 <= 0 /\ exists cb, NewCircularBuffer 0 = Ok cb /\ buffer cb = []).
Proof.
  split.
  - split; [lia|].
    destruct (nonpositive_capacity (-1)) as [[_ E]|[E _]]; [lia|exact E|discriminate E].
  - split; [lia|].
    destruct (nonpositive_capacity 0) as [[E _]|[_ (cb & E & Hb & _)]]; [lia|lia|].
    exists cb. split; [exact E|exact Hb].
Defined.

(** C10. On any buffer, a call of Average that returns leaves the buffer as
    it was, and any number of calls in a row, with no Push or Pop between
    them, all return that same result and still leave the buffer as it was;
    the same holds of PrintBuffer and the text it prints. *)
Theorem reads_repeatable (cb : CircularBuffer) (n : nat) :
  (forall avg cb', Average cb = Ok (avg, cb') ->
     cb' = cb /\ calls Average n cb = Ok (replicate n avg, cb)) /\
  (forall text cb', PrintBuffer cb = Ok (text, cb') ->
     cb' = cb /\ calls PrintBuffer n cb = Ok (replicate n text, cb)).
Proof.
  split.
  - intros avg cb' E. exact (calls_read_only Average n cb avg cb' read_only_Average E).
  - intros text cb' E.
    exact (calls_read_only PrintBuffer n cb text cb' read_only_PrintBuffer E).
Qed.

Lemma reads_repeatable_witness :
  Average (mkCircularBuffer [4; 1; 2; 3]%float 4 1 1 4) =
    Ok (2.5%float, mkCircularBuffer [4; 1; 2; 3]%float 4 1 1 4) /\
  calls Average 3 (mkCircularBuffer [4; 1; 2; 3]%float 4 1 1 4) =
    Ok ([2.5; 2.5; 2.5]%float, mkCircularBuffer [4; 1; 2; 3]%float 4 1 1 4) /\
  calls PrintBuffer 2 (mkCircularBuffer [4; 1; 2; 3]%float 4 2 1 1) =
    Ok ([[Print "Buffer contents (tail to head): "; Printf "%.2f " 1; Println ""];
         [Print "Buffer contents (tail to head): "; Printf "%.2f " 1; Println ""]],
        mkCircularBuffer [4; 1; 2; 3]%float 4 2 1 1).
Proof.
  split; [vm_compute; reflexivity|]. split.
  - apply (proj1 (reads_repeatable _ 3) 2.5%float
             (mkCircularBuffer [4; 1; 2; 3]%float 4 1 1 4)).
    vm_compute. reflexivity.
  - apply (proj2 (reads_repeatable _ 2)
             [Print "Buffer contents (tail to head): "; Printf "%.2f " 1; Println ""]
             (mkCircularBuffer [4; 1; 2; 3]%float 4 2 1 1)).
    vm_compute. reflexivity.
Defined.

(** ** Calls against the reference queue *)

Lemma Push_holds (k : Z) (q : list float) (cb : CircularBuffer) (item : float) :
  holds k q cb ->
  exists cb',
    Push item cb =
      Ok (if Z.of_nat (length q) =? k then hd 0%float q else 0%float, cb') /\
    holds k (queue_step k q (OpPush item)) cb'.
Proof.
  intros H. pose proof (holds_length _ _ _ H) as Hlen.
  destruct H as (Hwf & Hk & Hq).
  destruct (Push_wf item cb Hwf) as (cb' & E & Hwf' & Hk' & Hq').
  exists cb'. unfold is_full in E, Hq'. rewrite Hk, <- Hlen in E, Hq'.
  destruct Hwf as [Hb Hh]. pose proof Hb as [Hn Hl Ha Hhr Ht Hc].
  split.
  - rewrite E. destruct (Z.eqb_spec (Z.of_nat (length q)) k) as [Hfull|_]; [|reflexivity].
    assert (Hne : count cb <> 0) by lia.
    pose proof (contents_head cb Hb Hne) as Hd. rewrite Hq in Hd.
    destruct q as [|x q']; [discriminate Hd|]. cbn in Hd. cbn [hd]. congruence.
  - split; [exact Hwf'|]. split; [congruence|].
    rewrite Hq', Hq. cbn [queue_step].
    destruct (Z.of_nat (length q) =? k); reflexivity.
Qed.

Lemma Pop_holds (k : Z) (q : list float) (cb : CircularBuffer) :
  holds k q cb ->
  exists cb',
    Pop cb = Ok (match q with [] => (0%float, false) | x :: _ => (x, true) end, cb') /\
    holds k (drop 1 q) cb'.
Proof.
  intros H. pose proof (holds_length _ _ _ H) as Hlen.
  destruct H as (Hwf & Hk & Hq).
  destruct q as [|x q'].
  - exists cb. rewrite (Pop_count_0 cb) by (cbn in Hlen; lia).
    split; [reflexivity|]. exact (conj Hwf (conj Hk Hq)).
  - assert (Hne : count cb <> 0) by (cbn [length] in Hlen; lia).
    destruct (Pop_wf cb Hwf Hne) as (cb' & E & Hwf' & Hk' & Hq').
    exists cb'. pose proof (contents_head cb (proj1 Hwf) Hne) as Hd.
    rewrite Hq in Hd. cbn in Hd. split.
    + rewrite E. congruence.
    + split; [exact Hwf'|]. split; [congruence|]. rewrite Hq', Hq. reflexivity.
Qed.

Lemma run_ops_results_holds (k : Z) (ops : list op) (q : list float) (cb : CircularBuffer) :
  holds k q cb ->
  exists cb',
    run_ops_results ops cb = Ok (queue_results k q ops, cb') /\
    holds k (fold_left (queue_step k) ops q) cb'.
Proof.
  revert q cb. induction ops as [|o ops IH]; intros q cb H.
  - exists cb. split; [reflexivity|exact H].
  - assert (exists cb1, run_op_result o cb = Ok (queue_result k q o, cb1) /\
                        holds k (queue_step k q o) cb1) as (cb1 & E1 & H1).
    { destruct o as [item|]; cbn [run_op_result queue_result queue_step].
      - destruct (Push_holds k q cb item H) as (cb1 & E & H1).
        exists cb1. unfold bind. rewrite E. split; [reflexivity|exact H1].
      - destruct (Pop_holds k q cb H) as (cb1 & E & H1).
        exists cb1. unfold bind. rewrite E.
        split; [destruct q; reflexivity|exact H1]. }
    destruct (IH _ _ H1) as (cb2 & E2 & H2).
    exists cb2. cbn [run_ops_results queue_results fold_left].
    unfold bind at 1. rewrite E1. unfold bind at 1. rewrite E2.
    split; [reflexivity|exact H2].
Qed.

Lemma PrintBuffer_holds (k : Z) (q : list float) (cb : CircularBuffer) :
  holds k q cb -> PrintBuffer cb = Ok (text_of q, cb).
Proof.
  intros H. pose proof (holds_length _ _ _ H) as Hlen.
  destruct H as ([Hb _] & _ & Hq). destruct q as [|x q'].
  - unfold PrintBuffer, bind, gets. cbn in Hlen. rewrite <- Hlen. reflexivity.
  - rewrite (PrintBuffer_in_bounds cb Hb) by (cbn [length] in Hlen; lia).
    rewrite Hq. reflexivity.
Qed.

Lemma Average_holds (k : Z) (q : list float) (cb : CircularBuffer) :
  holds k q cb -> Average cb = Ok (average_of q, cb).
Proof.
  intros H. pose proof (holds_length _ _ _ H) as Hlen.
  destruct H as ([Hb _] & _ & Hq). destruct q as [|x q'].
  - unfold Average, bind, gets. cbn in Hlen. rewrite <- Hlen. reflexivity.
  - rewrite (Average_in_bounds cb Hb) by (cbn [length] in Hlen; lia).
    rewrite Hq, <- Hlen. reflexivity.
Qed.

(** ** Streams of pushes and pops *)

Lemma Pushes_app (a b : list float) (cb : CircularBuffer) :
  Pushes (a ++ b) cb =
  match Pushes a cb with
  | Ok (ra, cb1) =>
      match Pushes b cb1 with
      | Ok (rb, cb2) => Ok (ra ++ rb, cb2)
      | Panic p => Panic p
      end
  | Panic p => Panic p
  end.
Proof.
  revert cb. induction a as [|x a IH]; intros cb.
  - cbn. destruct (Pushes b cb) as [[rb cb2]|p]; reflexivity.
  - cbn [app Pushes]. unfold bind, gets, ret.
    destruct (Push x cb) as [[popped cb1]|p]; [|reflexivity].
    rewrite IH.
    destruct (Pushes a cb1) as [[ra cb2]|p]; [|reflexivity].
    destruct (Pushes b cb2) as [[rb cb3]|p]; reflexivity.
Qed.

(** Pushing onto a full buffer: each push gives back the element that was
    pushed [k] pushes before it. *)
Lemma Pushes_full (k : Z) (items q : list float) (cb : CircularBuffer) :
  holds k q cb -> Z.of_nat (length q) = k ->
  exists cb',
    Pushes items cb =
      Ok ((fun x => (true, x)) <$> take (length items) (q ++ items), cb') /\
    holds k (drop (length items) (q ++ items)) cb'.
Proof.
  revert q cb. induction items as [|x items IH]; intros q cb H Hfull.
  - exists cb. cbn. rewrite take_0, drop_0, app_nil_r. split; [reflexivity|exact H].
  - pose proof (holds_length _ _ _ H) as Hc.
    destruct (Push_holds k q cb x H) as (cb1 & E1 & H1).
    cbn [queue_step] in H1. replace (Z.of_nat (length q) =? k) with true in E1, H1 by lia.
    assert (Hk : 0 < k) by (destruct H as ([[] _] & <- & _); assumption).
    destruct q as [|h t]; [cbn in Hfull; lia|]. cbn [hd drop] in E1, H1.
    destruct (IH (t ++ [x]) cb1 H1) as (cb2 & E2 & H2).
    { rewrite length_app. cbn [length] in *. lia. }
    exists cb2. cbn [Pushes]. unfold bind at 1, gets at 1.
    assert (Hf : is_full cb = true).
    { destruct H as (_ & Hsz & _). unfold is_full. lia. }
    rewrite Hf. unfold bind at 1. rewrite E1. unfold bind at 1. rewrite E2.
    rewrite <- !app_assoc in *. cbn [app length take drop fmap list_fmap] in *.
    split; [reflexivity|exact H2].
Qed.

(** Popping [n] times: the live elements come out oldest first, then the
    buffer answers that it is empty. *)
Lemma Pops_holds (k : Z) (n : nat) (q : list float) (cb : CircularBuffer) :
  holds k q cb ->
  exists cb',
    calls Pop n cb =
      Ok (((fun x => (x, true)) <$> take n q)
            ++ replicate (n - length q) (0%float, false), cb') /\
    holds k (drop n q) cb'.
Proof.
  revert q cb. induction n as [|n IH]; intros q cb H.
  - exists cb. rewrite drop_0. split; [reflexivity|exact H].
  - destruct (Pop_holds k q cb H) as (cb1 & E1 & H1).
    destruct (IH _ _ H1) as (cb2 & E2 & H2).
    exists cb2. cbn [calls]. unfold bind at 1. rewrite E1.
    unfold bind at 1. rewrite E2.
    destruct q as [|x q'].
    + rewrite drop_nil in *. rewrite !take_nil, Nat.sub_0_r.
      split; [reflexivity|exact H2].
    + cbn [drop] in E2, H2. rewrite drop_0 in E2, H2.
      split; [reflexivity|exact H2].
Qed.

Lemma Push_keeps_in_bounds (item : float) (cb : CircularBuffer) :
  in_bounds cb ->
  exists popped cb',
    Push item cb = Ok (popped, cb') /\ in_bounds cb' /\
    size cb' = size cb /\ head cb' = (head cb + 1) mod size cb.
Proof.
  intros Hb. rewrite (Push_in_bounds item cb Hb).
  pose proof Hb as [Hn Hl Ha Hhr Ht Hc].
  assert (Hh1 : 0 <= (head cb + 1) mod size cb < size cb) by (apply Z.mod_pos_bound; lia).
  assert (Ht1 : 0 <= (tail cb + 1) mod size cb < size cb) by (apply Z.mod_pos_bound; lia).
  do 2 eexists. split; [reflexivity|]. split; [|split; reflexivity].
  unfold is_full. constructor; cbn; rewrite ?length_insert; try lia;
    destruct (Z.eqb_spec (count cb) (size cb)); lia.
Qed.

Lemma Pushes_head_in_bounds (items : list float) (cb : CircularBuffer) :
  in_bounds cb ->
  exists r cb',
    Pushes items cb = Ok (r, cb') /\ in_bounds cb' /\ size cb' = size cb /\
    head cb' = (head cb + Z.of_nat (length items)) mod size cb.
Proof.
  revert cb. induction items as [|x items IH]; intros cb Hb.
  - exists [], cb. pose proof Hb as [Hn Hl Ha Hhr Ht Hc].
    split; [reflexivity|]. split; [exact Hb|]. split; [reflexivity|].
    cbn. rewrite Z.add_0_r, Z.mod_small; lia.
  - destruct (Push_keeps_in_bounds x cb Hb) as (popped & cb1 & E1 & Hb1 & Hs1 & Hh1).
    destruct (IH cb1 Hb1) as (r & cb2 & E2 & Hb2 & Hs2 & Hh2).
    eexists _, cb2. cbn [Pushes]. unfold bind at 1, gets at 1.
    unfold bind at 1. rewrite E1. unfold bind at 1. rewrite E2.
    split; [reflexivity|]. split; [exact Hb2|]. split; [congruence|].
    rewrite Hh2, Hh1, Hs1, Zplus_mod_idemp_l. f_equal. cbn [length]. lia.
Qed.

Lemma fmap_const_replicate {A B} (c : B) (l : list A) :
  (fun _ => c) <$> l = replicate (length l) c.
Proof. induction l as [|x l IH]; cbn; [reflexivity|]. f_equal. exact IH. Qed.

(** After any number of pushes onto an empty buffer of capacity [k], the live
    elements are the last [k] items pushed (all of them when there are fewer). *)
Lemma Pushes_window_holds (k : Z) (items : list float) (cb0 : CircularBuffer) :
  holds k [] cb0 ->
  exists cb,
    Pushes items cb0 =
      Ok (replicate (length items `min` Z.to_nat k) (false, 0%float)
            ++ ((fun x => (true, x)) <$> take (length items - Z.to_nat k) items), cb) /\
    holds k (drop (length items - Z.to_nat k) items) cb.
Proof.
  intros H0.
  assert (Hk : 0 < k) by (destruct H0 as ([[] _] & <- & _); assumption).
  destruct (Nat.le_gt_cases (length items) (Z.to_nat k)) as [Hle|Hgt].
  - destruct (Pushes_holds k items [] cb0 H0) as (cb & E & H); [cbn; lia|].
    exists cb. replace (length items - Z.to_nat k)%nat with 0%nat by lia.
    rewrite Nat.min_l, take_0, drop_0, app_nil_r by lia.
    rewrite fmap_const_replicate in E. split; [exact E|exact H].
  - destruct (Pushes_holds k (take (Z.to_nat k) items) [] cb0 H0) as (cb1 & E1 & H1).
    { rewrite length_take. cbn. lia. }
    cbn [app] in H1.
    destruct (Pushes_full k (drop (Z.to_nat k) items) (take (Z.to_nat k) items) cb1 H1)
      as (cb2 & E2 & H2).
    { rewrite length_take. lia. }
    exists cb2. rewrite take_drop, length_drop in E2, H2.
    rewrite <- (take_drop (Z.to_nat k) items) at 1.
    rewrite Pushes_app, E1, E2. rewrite fmap_const_replicate, length_take.
    rewrite (Nat.min_comm (length items)). split; [reflexivity|exact H2].
Qed.

(** ** Further properties of the buffer *)

(** Pushing any number of items onto a new buffer of size k > 0 never panics.
    The first k pushes find the buffer not full and return the zero value;
    every later push finds it full and returns the item pushed k pushes
    earlier.  Afterwards the live elements are the last k items pushed, in the
    order pushed (all of them when fewer than k were pushed), and PrintBuffer
    prints exactly those. *)
Theorem Pushes_sliding_window (k : Z) (items : list float) (cb0 : CircularBuffer) :
  0 < k -> NewCircularBuffer k = Ok cb0 ->
  exists cb,
    Pushes items cb0 =
      Ok (replicate (length items `min` Z.to_nat k) (false, 0%float)
            ++ ((fun x => (true, x)) <$> take (length items - Z.to_nat k) items), cb) /\
    contents cb = drop (length items - Z.to_nat k) items /\
    count cb = Z.of_nat (length items `min` Z.to_nat k) /\
    PrintBuffer cb = Ok (text_of (drop (length items - Z.to_nat k) items), cb).
Proof.
  intros Hk E. destruct (NewCircularBuffer_wf k cb0 Hk E) as (Hwf0 & Hk0 & Hq0).
  destruct (Pushes_window_holds k items cb0 (conj Hwf0 (conj Hk0 Hq0))) as (cb & Ep & H).
  exists cb. split; [exact Ep|]. split; [exact (proj2 (proj2 H))|].
  split; [|exact (PrintBuffer_holds _ _ _ H)].
  rewrite <- (holds_length _ _ _ H), length_drop. lia.
Qed.

Lemma Pushes_sliding_window_witness :
  0 < 2 /\
  NewCircularBuffer 2 = Ok (mkCircularBuffer [0; 0]%float 2 0 0 0) /\
  exists cb,
    Pushes [7; 8; 9; 10; 11]%float (mkCircularBuffer [0; 0]%float 2 0 0 0) =
      Ok ([(false, 0); (false, 0); (true, 7); (true, 8); (true, 9)]%float, cb) /\
    contents cb = [10; 11]%float.
Proof.
  split; [lia|]. split; [reflexivity|].
  destruct (Pushes_sliding_window 2 [7; 8; 9; 10; 11]%float
              (mkCircularBuffer [0; 0]%float 2 0 0 0))
    as (cb & E & Hq & _); [lia|reflexivity|].
  exists cb. split; [exact E|exact Hq].
Defined.

(** The moving average: after pushing a non-empty list of items onto a new
    buffer of size k > 0, Average returns the sum of the last k items pushed
    (of all of them when fewer than k were pushed), added oldest first to 0,
    divided by their number. *)
Theorem moving_average (k : Z) (items : list float) (cb0 : CircularBuffer) :
  0 < k -> NewCircularBuffer k = Ok cb0 -> items <> [] ->
  exists r cb,
    Pushes items cb0 = Ok (r, cb) /\
    Average cb =
      Ok ((fold_left PrimFloat.add (drop (length items - Z.to_nat k) items) 0
           / float64_of_int (Z.of_nat (length items `min` Z.to_nat k)))%float, cb).
Proof.
  intros Hk E Hne. destruct (NewCircularBuffer_wf k cb0 Hk E) as (Hwf0 & Hk0 & Hq0).
  destruct (Pushes_window_holds k items cb0 (conj Hwf0 (conj Hk0 Hq0))) as (cb & Ep & H).
  eexists _, cb. split; [exact Ep|].
  rewrite (Average_holds _ _ _ H). unfold average_of.
  assert (Hlen : length (drop (length items - Z.to_nat k) items)
                 = (length items `min` Z.to_nat k)%nat) by (rewrite length_drop; lia).
  destruct (drop (length items - Z.to_nat k) items) as [|x w] eqn:Ew.
  - destruct items; [contradiction|]. cbn [length] in Hlen. lia.
  - rewrite Hlen. reflexivity.
Qed.

Lemma moving_average_witness :
  0 < 2 /\
  NewCircularBuffer 2 = Ok (mkCircularBuffer [0; 0]%float 2 0 0 0) /\
  [7; 8; 9; 10; 11]%float <> [] /\
  exists r cb,
    Pushes [7; 8; 9; 10; 11]%float (mkCircularBuffer [0; 0]%float 2 0 0 0) = Ok (r, cb) /\
    Average cb = Ok (10.5%float, cb).
Proof.
  split; [lia|]. split; [reflexivity|]. split; [discriminate|].
  destruct (moving_average 2 [7; 8; 9; 10; 11]%float
              (mkCircularBuffer [0; 0]%float 2 0 0 0))
    as (r & cb & E & Ea); [lia|reflexivity|discriminate|].
  exists r, cb. split; [exact E|exact Ea].
Defined.

(** Every result handed back to a client agrees with a bounded first-in
    first-out queue: on a new buffer of size k > 0, no sequence of Push and
    Pop calls panics; each Push returns the oldest live element when k
    elements are live and 0 otherwise; each Pop returns the oldest live
    element with true, or 0 with false when nothing is live; and the elements
    left in the slots (tail + i) mod size are the queue's. *)
Theorem calls_refine_queue (k : Z) (ops : list op) (cb0 : CircularBuffer) :
  0 < k -> NewCircularBuffer k = Ok cb0 ->
  exists cb,
    run_ops_results ops cb0 = Ok (queue_results k [] ops, cb) /\
    contents cb = queue_after k ops.
Proof.
  intros Hk E. destruct (NewCircularBuffer_wf k cb0 Hk E) as (Hwf0 & Hk0 & Hq0).
  destruct (run_ops_results_holds k ops [] cb0 (conj Hwf0 (conj Hk0 Hq0)))
    as (cb & Er & H).
  exists cb. split; [exact Er|exact (proj2 (proj2 H))].
Qed.

Lemma calls_refine_queue_witness :
  0 < 2 /\
  NewCircularBuffer 2 = Ok (mkCircularBuffer [0; 0]%float 2 0 0 0) /\
  exists cb,
    run_ops_results [OpPop; OpPush 7; OpPush 8; OpPush 9; OpPop; OpPop; OpPop]
      (mkCircularBuffer [0; 0]%float 2 0 0 0) =
      Ok ([PopResult 0 false; PushResult 0; PushResult 0; PushResult 7;
           PopResult 8 true; PopResult 9 true; PopResult 0 false], cb) /\
    contents cb = [].
Proof.
  split; [lia|]. split; [reflexivity|].
  destruct (calls_refine_queue 2
              [OpPop; OpPush 7; OpPush 8; OpPush 9; OpPop; OpPop; OpPop]
              (mkCircularBuffer [0; 0]%float 2 0 0 0))
    as (cb & E & Hq); [lia|reflexivity|].
  exists cb. split; [exact E|exact Hq].
Defined.

(** Draining: after any sequence of Push and Pop calls on a new buffer of
    size k > 0, n further Pop calls return the live elements oldest first,
    each with true, and once these are used up return 0 with false; the
    elements not yet popped stay live in their order. *)
Theorem Pops_drain (k : Z) (ops : list op) (n : nat) (cb0 cb1 : CircularBuffer) :
  0 < k -> NewCircularBuffer k = Ok cb0 -> run_ops ops cb0 = Ok (tt, cb1) ->
  exists cb2,
    calls Pop n cb1 =
      Ok (((fun x => (x, true)) <$> take n (contents cb1))
            ++ replicate (n - length (contents cb1)) (0%float, false), cb2) /\
    contents cb2 = drop n (contents cb1) /\
    count cb2 = Z.of_nat (length (contents cb1) - n).
Proof.
  intros Hk E Erun. destruct (NewCircularBuffer_wf k cb0 Hk E) as (Hwf0 & Hk0 & Hq0).
  destruct (run_ops_holds k ops [] cb0 (conj Hwf0 (conj Hk0 Hq0))) as (cb' & E' & H).
  rewrite Erun in E'. inversion E'; subst cb'.
  assert (H1 : holds k (contents cb1) cb1).
  { destruct H as (Hwf & Hsz & _). exact (conj Hwf (conj Hsz eq_refl)). }
  destruct (Pops_holds k n (contents cb1) cb1 H1) as (cb2 & Ep & H2).
  exists cb2. split; [exact Ep|]. split; [exact (proj2 (proj2 H2))|].
  rewrite <- (holds_length _ _ _ H2), length_drop. reflexivity.
Qed.

Lemma Pops_drain_witness :
  0 < 2 /\
  NewCircularBuffer 2 = Ok (mkCircularBuffer [0; 0]%float 2 0 0 0) /\
  run_ops [OpPush 7; OpPush 8; OpPush 9] (mkCircularBuffer [0; 0]%float 2 0 0 0) =
    Ok (tt, mkCircularBuffer [9; 8]%float 2 1 1 2) /\
  exists cb2,
    calls Pop 3 (mkCircularBuffer [9; 8]%float 2 1 1 2) =
      Ok ([(8, true); (9, true); (0, false)]%float, cb2) /\
    count cb2 = 0.
Proof.
  split; [lia|]. split; [reflexivity|]. split; [vm_compute; reflexivity|].
  destruct (Pops_drain 2 [OpPush 7; OpPush 8; OpPush 9] 3
              (mkCircularBuffer [0; 0]%float 2 0 0 0)
              (mkCircularBuffer [9; 8]%float 2 1 1 2))
    as (cb2 & E & _ & Hc); [lia|reflexivity|vm_compute; reflexivity|].
  exists cb2. split; [exact E|exact Hc].
Defined.

(** Round trip: pushing at most k items onto a new buffer of size k and then
    popping as many times gives the items back in the order pushed, each with
    true, and leaves the buffer empty. *)
Theorem Push_Pop_round_trip (k : Z) (items : list float) (cb0 : CircularBuffer) :
  NewCircularBuffer k = Ok cb0 -> 0 < Z.of_nat (length items) <= k ->
  exists r cb1 cb2,
    Pushes items cb0 = Ok (r, cb1) /\
    calls Pop (length items) cb1 = Ok ((fun x => (x, true)) <$> items, cb2) /\
    count cb2 = 0 /\
    Pop cb2 = Ok ((0%float, false), cb2).
Proof.
  intros E Hlen.
  assert (Hk : 0 < k) by lia.
  destruct (NewCircularBuffer_wf k cb0 Hk E) as (Hwf0 & Hk0 & Hq0).
  destruct (Pushes_holds k items [] cb0 (conj Hwf0 (conj Hk0 Hq0))) as (cb1 & E1 & H1);
    [cbn; lia|].
  cbn [app] in H1.
  destruct (Pops_holds k (length items) items cb1 H1) as (cb2 & E2 & H2).
  rewrite firstn_all, Nat.sub_diag, app_nil_r in E2. rewrite drop_all in H2.
  assert (Hc : count cb2 = 0) by (rewrite <- (holds_length _ _ _ H2); reflexivity).
  eexists _, cb1, cb2. split; [exact E1|]. split; [exact E2|]. split; [exact Hc|].
  exact (Pop_count_0 cb2 Hc).
Qed.

Lemma Push_Pop_round_trip_witness :
  NewCircularBuffer 3 = Ok (mkCircularBuffer [0; 0; 0]%float 3 0 0 0) /\
  0 < Z.of_nat (length [7; 8]%float) <= 3 /\
  exists r cb1 cb2,
    Pushes [7; 8]%float (mkCircularBuffer [0; 0; 0]%float 3 0 0 0) = Ok (r, cb1) /\
    calls Pop 2 cb1 = Ok ([(7, true); (8, true)]%float, cb2) /\ count cb2 = 0.
Proof.
  split; [reflexivity|]. split; [cbn; lia|].
  destruct (Push_Pop_round_trip 3 [7; 8]%float (mkCircularBuffer [0; 0; 0]%float 3 0 0 0))
    as (r & cb1 & cb2 & E1 & E2 & Hc & _); [reflexivity|cbn; lia|].
  exists r, cb1, cb2. split; [exact E1|]. split; [exact E2|exact Hc].
Defined.

(** Order is kept across wrap-arounds: after any sequence of Push and Pop
    calls on a new buffer of size k > 0, PrintBuffer does not panic, leaves
    the buffer as it was, and prints the heading followed by the live
    elements oldest first and a newline, or by the word empty when no
    element is live. *)
Theorem PrintBuffer_after_calls (k : Z) (ops : list op) (cb0 cb : CircularBuffer) :
  0 < k -> NewCircularBuffer k = Ok cb0 -> run_ops ops cb0 = Ok (tt, cb) ->
  PrintBuffer cb = Ok (text_of (queue_after k ops), cb).
Proof.
  intros Hk E Erun. destruct (NewCircularBuffer_wf k cb0 Hk E) as (Hwf0 & Hk0 & Hq0).
  destruct (run_ops_holds k ops [] cb0 (conj Hwf0 (conj Hk0 Hq0))) as (cb' & E' & H).
  rewrite Erun in E'. inversion E'; subst cb'.
  exact (PrintBuffer_holds _ _ _ H).
Qed.

Lemma PrintBuffer_after_calls_witness :
  0 < 2 /\
  NewCircularBuffer 2 = Ok (mkCircularBuffer [0; 0]%float 2 0 0 0) /\
  run_ops [OpPush 7; OpPush 8; OpPush 9] (mkCircularBuffer [0; 0]%float 2 0 0 0) =
    Ok (tt, mkCircularBuffer [9; 8]%float 2 1 1 2) /\
  PrintBuffer (mkCircularBuffer [9; 8]%float 2 1 1 2) =
    Ok ([Print "Buffer contents (tail to head): "; Printf "%.2f " 8; Printf "%.2f " 9;
         Println ""], mkCircularBuffer [9; 8]%float 2 1 1 2).
Proof.
  split; [lia|]. split; [reflexivity|]. split; [vm_compute; reflexivity|].
  apply (PrintBuffer_after_calls 2 [OpPush 7; OpPush 8; OpPush 9]
           (mkCircularBuffer [0; 0]%float 2 0 0 0)); [lia|reflexivity|].
  vm_compute. reflexivity.
Defined.

(** After any sequence of Push and Pop calls on a new buffer of size k > 0,
    Average does not panic and returns 0 when no element is live, and
    otherwise the sum of the live elements, added oldest first to 0, divided
    by their number. *)
Theorem Average_after_calls (k : Z) (ops : list op) (cb0 cb : CircularBuffer) :
  0 < k -> NewCircularBuffer k = Ok cb0 -> run_ops ops cb0 = Ok (tt, cb) ->
  Average cb = Ok (average_of (queue_after k ops), cb).
Proof.
  intros Hk E Erun. destruct (NewCircularBuffer_wf k cb0 Hk E) as (Hwf0 & Hk0 & Hq0).
  destruct (run_ops_holds k ops [] cb0 (conj Hwf0 (conj Hk0 Hq0))) as (cb' & E' & H).
  rewrite Erun in E'. inversion E'; subst cb'.
  exact (Average_holds _ _ _ H).
Qed.

Lemma Average_after_calls_witness :
  0 < 2 /\
  NewCircularBuffer 2 = Ok (mkCircularBuffer [0; 0]%float 2 0 0 0) /\
  run_ops [OpPush 7; OpPush 8; OpPush 9; OpPop] (mkCircularBuffer [0; 0]%float 2 0 0 0) =
    Ok (tt, mkCircularBuffer [9; 8]%float 2 1 0 1) /\
  Average (mkCircularBuffer [9; 8]%float 2 1 0 1) =
    Ok (9%float, mkCircularBuffer [9; 8]%float 2 1 0 1).
Proof.
  split; [lia|]. split; [reflexivity|]. split; [vm_compute; reflexivity|].
  apply (Average_after_calls 2 [OpPush 7; OpPush 8; OpPush 9; OpPop]
           (mkCircularBuffer [0; 0]%float 2 0 0 0)); [lia|reflexivity|].
  vm_compute. reflexivity.
Defined.

Lemma Average_count_0 (cb : CircularBuffer) :
  count cb = 0 -> Average cb = Ok (0%float, cb).
Proof. intros Hc. unfold Average, bind, gets. rewrite Hc. reflexivity. Qed.

Lemma PrintBuffer_count_0 (cb : CircularBuffer) :
  count cb = 0 ->
  PrintBuffer cb = Ok ([Print "Buffer contents (tail to head): "; Println "empty"], cb).
Proof. intros Hc. unfold PrintBuffer, bind, gets. rewrite Hc. reflexivity. Qed.

(** Average and PrintBuffer never look at a slot that holds no live element:
    two buffers in bounds with the same live elements, whatever their sizes,
    their positions of head and tail and the values left in their other
    slots, give the same average and the same printed text. *)
Theorem reads_depend_on_contents (cb1 cb2 : CircularBuffer) :
  in_bounds cb1 -> in_bounds cb2 -> contents cb1 = contents cb2 ->
  exists avg text,
    Average cb1 = Ok (avg, cb1) /\ Average cb2 = Ok (avg, cb2) /\
    PrintBuffer cb1 = Ok (text, cb1) /\ PrintBuffer cb2 = Ok (text, cb2).
Proof.
  intros Hb1 Hb2 Hq.
  assert (Hc : count cb1 = count cb2).
  { pose proof (contents_length cb1) as L1. pose proof (contents_length cb2) as L2.
    rewrite Hq in L1. destruct Hb1, Hb2. lia. }
  destruct (Z.eq_dec (count cb1) 0) as [H0|Hne].
  - do 2 eexists. rewrite (Average_count_0 cb1 H0), (PrintBuffer_count_0 cb1 H0).
    rewrite Hc in H0. rewrite (Average_count_0 cb2 H0), (PrintBuffer_count_0 cb2 H0).
    repeat split.
  - do 2 eexists.
    rewrite (Average_in_bounds cb1 Hb1 Hne), (PrintBuffer_in_bounds cb1 Hb1 Hne).
    rewrite Hc in Hne.
    rewrite (Average_in_bounds cb2 Hb2 Hne), (PrintBuffer_in_bounds cb2 Hb2 Hne).
    rewrite Hq, Hc. repeat split.
Qed.

Lemma reads_depend_on_contents_witness :
  in_bounds (mkCircularBuffer [9; 1; 2]%float 3 0 1 2) /\
  in_bounds (mkCircularBuffer [2; 5; 6; 7; 1]%float 5 1 4 2) /\
  contents (mkCircularBuffer [9; 1; 2]%float 3 0 1 2) =
    contents (mkCircularBuffer [2; 5; 6; 7; 1]%float 5 1 4 2) /\
  exists avg text,
    Average (mkCircularBuffer [9; 1; 2]%float 3 0 1 2) =
      Ok (avg, mkCircularBuffer [9; 1; 2]%float 3 0 1 2) /\
    Average (mkCircularBuffer [2; 5; 6; 7; 1]%float 5 1 4 2) =
      Ok (avg, mkCircularBuffer [2; 5; 6; 7; 1]%float 5 1 4 2) /\
    PrintBuffer (mkCircularBuffer [9; 1; 2]%float 3 0 1 2) =
      Ok (text, mkCircularBuffer [9; 1; 2]%float 3 0 1 2) /\
    PrintBuffer (mkCircularBuffer [2; 5; 6; 7; 1]%float 5 1 4 2) =
      Ok (text, mkCircularBuffer [2; 5; 6; 7; 1]%float 5 1 4 2).
Proof.
  assert (Hb1 : in_bounds (mkCircularBuffer [9; 1; 2]%float 3 0 1 2))
    by (constructor; cbn; unfold maxAlloc; lia).
  assert (Hb2 : in_bounds (mkCircularBuffer [2; 5; 6; 7; 1]%float 5 1 4 2))
    by (constructor; cbn; unfold maxAlloc; lia).
  split; [exact Hb1|]. split; [exact Hb2|]. split; [reflexivity|].
  exact (reads_depend_on_contents _ _ Hb1 Hb2 eq_refl).
Defined.

(** The write position cycles: on a buffer in bounds, pushing n items never
    panics, leaves the size and the number of slots as they were, and moves
    head to (head + n) mod size, whether or not the pushes removed
    elements. *)
Theorem Pushes_head (items : list float) (cb : CircularBuffer) :
  in_bounds cb ->
  exists r cb',
    Pushes items cb = Ok (r, cb') /\
    size cb' = size cb /\
    length (buffer cb') = length (buffer cb) /\
    head cb' = (head cb + Z.of_nat (length items)) mod size cb.
Proof.
  intros Hb.
  destruct (Pushes_head_in_bounds items cb Hb) as (r & cb' & E & Hb' & Hs & Hh).
  exists r, cb'. split; [exact E|]. split; [exact Hs|]. split; [|exact Hh].
  destruct Hb, Hb'. lia.
Qed.

Lemma Pushes_head_witness :
  in_bounds (mkCircularBuffer [3; 1; 2]%float 3 1 1 3) /\
  exists r cb',
    Pushes [4; 5; 6; 7]%float (mkCircularBuffer [3; 1; 2]%float 3 1 1 3) = Ok (r, cb') /\
    head cb' = 2.
Proof.
  assert (Hb : in_bounds (mkCircularBuffer [3; 1; 2]%float 3 1 1 3))
    by (constructor; cbn; unfold maxAlloc; lia).
  split; [exact Hb|].
  destruct (Pushes_head [4; 5; 6; 7]%float _ Hb) as (r & cb' & E & _ & _ & Hh).
  exists r, cb'. split; [exact E|exact Hh].
Defined.
